(** * Frame-to-event-to-commentary pipeline: a shallow embedding

    The development follows the Python sources module by module:

    - [Text]      string primitives the sources rely on ([in], [lower],
                  [upper], [strip], [re.search], [int]);
    - [Analyzer]  [GameplayAnalyzer] of enhanced_gameplay_commentator.py;
    - [Enhanced]  [EnhancedGameplayCommentator] of the same file;
    - [Video]     [VideoCommentaryGenerator] of video_commentary_generator.py;
    - [Voice]     [VoiceCommentaryGenerator] of voice_commentary_generator.py;
    - [Advanced]  [AdvancedVideoCommentaryGenerator] of
                  advanced_video_commentary.py.

    Conventions.  Python floats (timestamps, confidences, durations) are
    exact rationals [Q]; Python [int]s are [Z]; [str] is [string] over
    ASCII.  What OpenCV, EasyOCR, YOLO and the speech client return is an
    input of the model.  An object's attributes ([self.x]) form a record
    that each method receives and returns. *)

From Stdlib Require Import List String Ascii Bool Arith ZArith QArith Qabs Qround.
From Stdlib Require Import Lia Lqa Sorting.Sorted Sorting.Permutation.
Import ListNotations.

Set Implicit Arguments.

(** ** Comparisons on rationals, as booleans *)

Definition Qltb (x y : Q) : bool := negb (Qle_bool y x).

(** ** String primitives *)

Module Text.

Local Open Scope string_scope.

Definition code (c : ascii) : nat := nat_of_ascii c.

(** [\d] restricted to ASCII: the characters '0' .. '9'. *)
Definition is_digit (c : ascii) : bool :=
  (48 <=? code c)%nat && (code c <=? 57)%nat.

Definition lower_char (c : ascii) : ascii :=
  if ((65 <=? code c)%nat && (code c <=? 90)%nat)%bool
  then ascii_of_nat (code c + 32) else c.

Definition upper_char (c : ascii) : ascii :=
  if ((97 <=? code c)%nat && (code c <=? 122)%nat)%bool
  then ascii_of_nat (code c - 32) else c.

Fixpoint map_string (f : ascii -> ascii) (s : string) : string :=
  match s with
  | EmptyString => EmptyString
  | String c s' => String (f c) (map_string f s')
  end.

(** [str.lower()] and [str.upper()]. *)
Definition lower : string -> string := map_string lower_char.
Definition upper : string -> string := map_string upper_char.

(** Characters removed by [str.strip()]. *)
Definition is_space (c : ascii) : bool :=
  ((9 <=? code c)%nat && (code c <=? 13)%nat)
  || ((28 <=? code c)%nat && (code c <=? 32)%nat).

Fixpoint lstrip (s : string) : string :=
  match s with
  | EmptyString => EmptyString
  | String c s' => if is_space c then lstrip s' else s
  end.

Fixpoint rev_onto (s acc : string) : string :=
  match s with
  | EmptyString => acc
  | String c s' => rev_onto s' (String c acc)
  end.

Definition rev (s : string) : string := rev_onto s EmptyString.

Definition strip (s : string) : string := rev (lstrip (rev (lstrip s))).

(** [p] is a prefix of [s]. *)
Fixpoint starts_with (p s : string) : bool :=
  match p, s with
  | EmptyString, _ => true
  | String a p', String b s' => Ascii.eqb a b && starts_with p' s'
  | String _ _, EmptyString => false
  end.

(** Python's [needle in hay] on strings. *)
Fixpoint contains (needle hay : string) : bool :=
  starts_with needle hay
  || match hay with
     | EmptyString => false
     | String _ hay' => contains needle hay'
     end.

(** [any(k in text for k in keys)]. *)
Definition any_in (keys : list string) (text : string) : bool :=
  existsb (fun k => contains k text) keys.

(** The longest run of digits at the head of [s], and the rest. *)
Fixpoint span_digits (s : string) : string * string :=
  match s with
  | EmptyString => (EmptyString, EmptyString)
  | String c s' =>
      if is_digit c
      then let '(d, r) := span_digits s' in (String c d, r)
      else (EmptyString, s)
  end.

(** [re.match] of [\d+ sep \d+] at the head of [s], for a separator that
    is not a digit.  The first [\d+] is greedy; giving back digits cannot
    help, because the character after a shorter run is a digit and not
    the separator.  So the groups are the two maximal runs. *)
Definition match_pair (sep : ascii) (s : string) : option (string * string) :=
  match span_digits s with
  | (String a d1, String c r) =>
      if Ascii.eqb c sep then
        match span_digits r with
        | (String b d2, _) => Some (String a d1, String b d2)
        | (EmptyString, _) => None
        end
      else None
  | _ => None
  end.

(** [re.search]: the match at the leftmost position that has one. *)
Fixpoint search_pair (sep : ascii) (s : string) : option (string * string) :=
  match match_pair sep s with
  | Some g => Some g
  | None =>
      match s with
      | EmptyString => None
      | String _ s' => search_pair sep s'
      end
  end.

(** [int(s)] on a string of ASCII digits. *)
Fixpoint int_acc (s : string) (acc : Z) : Z :=
  match s with
  | EmptyString => acc
  | String c s' => int_acc s' (10 * acc + Z.of_nat (code c - 48))%Z
  end.

Definition int (s : string) : Z := int_acc s 0%Z.

(** Decimal rendering of a non-negative integer, as [str(n)] gives it. *)
Definition digit_char (d : Z) : ascii := ascii_of_nat (48 + Z.to_nat d).

Fixpoint str_fuel (fuel : nat) (n : Z) (acc : string) : string :=
  match fuel with
  | O => acc
  | S f =>
      let acc' := String (digit_char (n mod 10)) acc in
      if (n / 10 =? 0)%Z then acc' else str_fuel f (n / 10)%Z acc'
  end.

Definition str (n : Z) : string := str_fuel (S (Z.to_nat n)) n EmptyString.

End Text.


(** ** Stable sort by a rational key

    [list.sort(key=...)] is stable; so is insertion before the first
    element whose key is not smaller. *)

Section SortByKey.
Variable A : Type.
Variable key : A -> Q.

Fixpoint insert_by_key (x : A) (l : list A) : list A :=
  match l with
  | [] => [x]
  | y :: l' =>
      if Qle_bool (key x) (key y) then x :: l
      else y :: insert_by_key x l'
  end.

Definition sort_by_key (l : list A) : list A :=
  fold_right insert_by_key [] l.

(** A list in non-decreasing order of its keys. *)
Definition sorted_by_key (l : list A) : Prop :=
  Sorted (fun a b => (key a <= key b)%Q) l.
End SortByKey.

(** ** The module-level random generator

    [random.choice] draws from the interpreter's generator.  The generator
    is a state that is threaded through every draw, so a run is
    reproducible from its seed. *)

Definition Rng := nat.

Definition next_rng (r : Rng) : Rng := (r * 75 + 74) mod 4999.

Definition choice (A : Type) (r : Rng) (l : list A) (d : A) : A * Rng :=
  (nth (r mod List.length l) l d, next_rng r).

(** ** The value under a dict key that may be missing *)

Inductive Slot (A : Type) : Type :=
| NoKey : Slot A               (* the key is not in the dict *)
| Null : Slot A                (* the key maps to [None] *)
| Val : A -> Slot A.

Arguments NoKey {A}.
Arguments Null {A}.

(** [d.get(key)]. *)
Definition slot_get (A : Type) (s : Slot A) : option A :=
  match s with
  | Val a => Some a
  | _ => None
  end.

(** The path [audio_dir / f"{stem}_{timestamp:.2f}s.mp3"]. *)
Record AudioPath := { stem : string; stamp : Q }.

(** ** GameplayAnalyzer (enhanced_gameplay_commentator.py) *)

Module Analyzer.

Local Open Scope string_scope.

(** One entry of [reader.readtext]: the text and its confidence. *)
Definition OcrResult : Type := (string * Q)%type.

(** What [reader.readtext] gives on a region; [None] when
    [import easyocr] raises [ImportError]. *)
Definition Reading : Type := option (list OcrResult).

(** A frame, seen through the regions the analyzer reads. *)
Record Frame := {
  kill_feed_region : Reading;
  timer_region : Reading;
  center_region : Reading;
  scoreboard_region : Reading;
  gray_mask_sum : Z              (* np.sum(gray_mask) of the ability region *)
}.

Record GameplayEvent := {
  timestamp : Q;
  event_type : string;
  description : string;
  importance : Z;
  players_involved : list string;
  location : option string
}.

Definition weapons : list string :=
  ["VANDAL"; "PHANTOM"; "OPERATOR"; "SHERIFF"; "GHOST"; "CLASSIC";
   "ARES"; "ODIN"; "SPECTRE"; "JUDGE"; "BUCKY"; "SHORTY";
   "BULLDOG"; "GUARDIAN"; "MARSHAL"; "FRENZY"; "STINGER"].

Definition _parse_kill_text (text : string) (ts : Q) : option GameplayEvent :=
  match find (fun w => Text.contains (Text.lower w) (Text.lower text)) weapons with
  | Some weapon =>
      Some {| timestamp := ts;
              event_type := "elimination";
              description := "Elimination with " ++ weapon ++ " - the fragging continues!";
              importance := 4;
              players_involved := ["Unknown Player"];
              location := Some "Unknown" |}
  | None =>
      if Text.contains "headshot" (Text.lower text)
         || Text.contains "hs" (Text.lower text)
      then Some {| timestamp := ts;
                   event_type := "headshot";
                   description := "Headshot elimination - what a shot!";
                   importance := 5;
                   players_involved := ["Unknown Player"];
                   location := None |}
      else None
  end.

Definition detect_kill_feed_events (f : Frame) (ts : Q) : list GameplayEvent :=
  match kill_feed_region f with
  | Some results =>
      flat_map (fun '(text, confidence) =>
                  if Qltb 0.5 confidence
                  then match _parse_kill_text text ts with
                       | Some e => [e]
                       | None => []
                       end
                  else [])
               results
  | None => []
  end.

(** The [for] loop of [detect_round_phase]: the first confident entry with
    a [\d+:\d+] timer decides and returns; [None] when the loop runs out. *)
Fixpoint scan_timer (results : list OcrResult) : option string :=
  match results with
  | [] => None
  | (text, confidence) :: rest =>
      if Qltb 0.6 confidence then
        match Text.search_pair ":" text with
        | Some _ =>
            if Text.any_in ["BUY"; "PREP"] (Text.upper text)
            then Some "PREP_PHASE"
            else Some "ACTION_PHASE"
        | None => scan_timer rest
        end
      else scan_timer rest
  end.

Definition detect_round_phase (f : Frame) : string :=
  match timer_region f with
  | Some results =>
      match scan_timer results with
      | Some phase => phase
      | None => "ACTION_PHASE"
      end
  | None => "ACTION_PHASE"
  end.

Definition detect_ability_usage (f : Frame) (ts : Q) : list GameplayEvent :=
  if (1000 <? gray_mask_sum f)%Z
  then [ {| timestamp := ts;
            event_type := "ability_used";
            description := "Ability usage detected - tactical play in progress";
            importance := 3;
            players_involved := ["Unknown Player"];
            location := None |} ]
  else [].

Definition detect_tactical_events (f : Frame) (ts : Q) : list GameplayEvent :=
  match center_region f with
  | Some results =>
      flat_map (fun '(text, confidence) =>
                  let text_upper := Text.upper text in
                  if Qltb 0.6 confidence then
                    if Text.contains "PLANT" text_upper
                       || Text.contains "SPIKE" text_upper
                    then [ {| timestamp := ts;
                              event_type := "spike_plant";
                              description := "Spike plant detected - critical moment!";
                              importance := 5;
                              players_involved := ["Attacker"];
                              location := None |} ]
                    else if Text.contains "DEFUS" text_upper
                    then [ {| timestamp := ts;
                              event_type := "spike_defuse";
                              description := "Defuse attempt detected - clutch situation!";
                              importance := 5;
                              players_involved := ["Defender"];
                              location := None |} ]
                    else []
                  else [])
               results
  | None => []
  end.

(** The dict [score_info]. *)
Record ScoreInfo := {
  round : Z;
  team1_score : Z;
  team2_score : Z
}.

Definition initial_score : ScoreInfo :=
  {| round := 1; team1_score := 0; team2_score := 0 |}.

(** One iteration of the loop of [analyze_scoreboard]. *)
Definition read_score (info : ScoreInfo) (r : OcrResult) : ScoreInfo :=
  let '(text, confidence) := r in
  if Qltb 0.7 confidence then
    match Text.search_pair "-" text with
    | Some (g1, g2) =>
        {| round := Text.int g1 + Text.int g2 + 1;
           team1_score := Text.int g1;
           team2_score := Text.int g2 |}
    | None => info
    end
  else info.

Definition analyze_scoreboard (f : Frame) : ScoreInfo :=
  match scoreboard_region f with
  | Some results => fold_left read_score results initial_score
  | None => initial_score
  end.

End Analyzer.

(** ** EnhancedGameplayCommentator (enhanced_gameplay_commentator.py) *)

Module Enhanced.

Local Open Scope string_scope.

(** [d.get(k, default)] on a dict with string keys. *)
Fixpoint dict_get (V : Type) (d : list (string * V)) (k : string) (default : V) : V :=
  match d with
  | [] => default
  | (k', v) :: d' => if String.eqb k' k then v else dict_get d' k default
  end.

(** An entry of [self.commentary_segments]. *)
Record Segment := {
  timestamp : Q;
  text : string;
  event_type : string;
  importance : Z;
  style : string;
  audio_file : Slot AudioPath
}.

Definition set_audio_file (s : Segment) (a : Slot AudioPath) : Segment :=
  {| timestamp := timestamp s; text := text s; event_type := event_type s;
     importance := importance s; style := style s; audio_file := a |}.

Definition commentary_templates : list (string * list string) :=
  [ ("elimination",
     [ "Another frag on the board! The aggression is paying off!";
       "That's a clean elimination - the momentum is building!";
       "Down goes another one! The team is executing perfectly!";
       "Beautiful frag - the mechanical skill on display here!";
       "That elimination could be the game changer they needed!" ]);
    ("headshot",
     [ "HEADSHOT! What an incredible shot - pure precision!";
       "One tap headshot - that's how you do it!";
       "Absolutely demolished with a headshot - incredible aim!";
       "Headshot elimination - the crowd goes wild!";
       "Perfect crosshair placement leads to another headshot!" ]);
    ("spike_plant",
     [ "Spike is down! The pressure is on the defenders now!";
       "Plant secured - now it's all about the retake!";
       "Spike planted - this round just became even more intense!";
       "The spike is down - defenders need to move fast!";
       "Plant successful - the attackers are in control now!" ]);
    ("spike_defuse",
     [ "Defuse attempt - this is clutch time!";
       "They're going for the defuse - can they get it?";
       "Defuse in progress - the tension is unbearable!";
       "Clutch defuse attempt - everything on the line!";
       "Going for the defuse - this could save the round!" ]);
    ("ability_used",
     [ "Tactical ability deployed - the strategy unfolds!";
       "Utility usage at the perfect moment!";
       "Ability activation - the team coordination is beautiful!";
       "Perfect timing on that ability usage!";
       "Tactical play in motion - the setup is developing!" ]);
    ("round_start",
     [ "Round begins - here we go!";
       "New round starting - the intensity builds!";
       "Fresh round underway - anything can happen!";
       "Round is live - let's see what they've got!";
       "Another round begins - the competition heats up!" ]);
    ("economic_context",
     [ "Economy plays a crucial role in this round setup!";
       "The economic decisions from last round show here!";
       "Team economy looking strong for this engagement!";
       "Economic management will be key this round!";
       "The buy decisions are about to pay dividends!" ]) ].

Definition fallback_templates : list string :=
  [ "Interesting play development here!";
    "The action continues to unfold!";
    "Strategic gameplay in progress!" ].

Definition general_comments : list string :=
  [ "The tactical positioning continues to evolve!";
    "Both teams showing excellent coordination!";
    "The mechanical skill on display is impressive!";
    "Strategic depth being showcased in this engagement!";
    "The game sense from both sides is remarkable!";
    "Positioning and timing will be crucial here!";
    "The team coordination is really paying off!";
    "Individual skill combined with team strategy!" ].

(** The attributes of the commentator that the pipeline reads and writes,
    with the generator that [random.choice] advances. *)
Record Commentator := {
  events_detected : list Analyzer.GameplayEvent;
  commentary_segments : list Segment;
  rng : Rng
}.

Definition new_commentator (seed : Rng) : Commentator :=
  {| events_detected := []; commentary_segments := []; rng := seed |}.

Definition _generate_event_commentary
    (self : Commentator) (event : Analyzer.GameplayEvent) : Commentator :=
  let templates :=
    dict_get commentary_templates (Analyzer.event_type event) fallback_templates in
  let '(chosen, r) := choice (rng self) templates "" in
  let commentary_text :=
    match Analyzer.location event with
    | Some loc =>
        if String.eqb loc "" then chosen
        else chosen ++ " Position: " ++ loc ++ "."
    | None => chosen
    end in
  {| events_detected := events_detected self;
     commentary_segments :=
       (commentary_segments self ++
        [ {| timestamp := Analyzer.timestamp event;
             text := commentary_text;
             event_type := Analyzer.event_type event;
             importance := Analyzer.importance event;
             style := if (4 <=? Analyzer.importance event)%Z
                      then "excitement" else "play_by_play";
             audio_file := NoKey |} ])%list;
     rng := r |}.

(** The loop [for event in events_this_frame] that ends an iteration of
    [analyze_gameplay_video]. *)
Definition comment_on_events
    (self : Commentator) (events : list Analyzer.GameplayEvent) : Commentator :=
  fold_left (fun s event =>
               if (3 <=? Analyzer.importance event)%Z
               then _generate_event_commentary s event
               else s)
            events self.

(** The commentator and the local variables that live across the
    iterations of the [while] loop of [analyze_gameplay_video]. *)
Record Loop := {
  self : Commentator;
  last_round_phase : string;
  last_score_info : Analyzer.ScoreInfo
}.

Definition loop_start (c : Commentator) : Loop :=
  {| self := c;
     last_round_phase := "ACTION_PHASE";
     last_score_info := Analyzer.initial_score |}.

(** Step 2 of the loop body: the events of a phase transition. *)
Definition phase_events (last current : string) (ts : Q) : list Analyzer.GameplayEvent :=
  if negb (String.eqb current last) then
    if String.eqb current "ACTION_PHASE" && negb (String.eqb last "ACTION_PHASE")
    then [ {| Analyzer.timestamp := ts;
              Analyzer.event_type := "round_start";
              Analyzer.description := "Round action phase begins";
              Analyzer.importance := 3;
              Analyzer.players_involved := [];
              Analyzer.location := None |} ]
    else []
  else [].

(** The value of [last_round_phase] after step 2. *)
Definition next_round_phase (last current : string) : string :=
  if negb (String.eqb current last) then current else last.

(** Step 3 of the loop body: the event of a score change. *)
Definition score_events (last info : Analyzer.ScoreInfo) (ts : Q) : list Analyzer.GameplayEvent :=
  if negb (Analyzer.round info =? Analyzer.round last)%Z
  then [ {| Analyzer.timestamp := ts;
            Analyzer.event_type := "economic_context";
            Analyzer.description :=
              "Round " ++ Text.str (Analyzer.round info) ++ " - Score: "
              ++ Text.str (Analyzer.team1_score info) ++ "-"
              ++ Text.str (Analyzer.team2_score info);
            Analyzer.importance := 2;
            Analyzer.players_involved := [];
            Analyzer.location := None |} ]
  else [].

(** The value of [last_score_info] after step 3. *)
Definition next_score_info (last info : Analyzer.ScoreInfo) : Analyzer.ScoreInfo :=
  if negb (Analyzer.round info =? Analyzer.round last)%Z then info else last.

(** [events_this_frame] at the end of steps 1 to 6. *)
Definition events_of_frame (st : Loop) (ts : Q) (frame : Analyzer.Frame)
  : list Analyzer.GameplayEvent :=
  let current_phase := Analyzer.detect_round_phase frame in
  let score_info := Analyzer.analyze_scoreboard frame in
  (phase_events (last_round_phase st) current_phase ts
   ++ score_events (last_score_info st) score_info ts
   ++ Analyzer.detect_kill_feed_events frame ts
   ++ Analyzer.detect_ability_usage frame ts
   ++ Analyzer.detect_tactical_events frame ts)%list.

(** One iteration of the [while] loop, on the frame read at [ts]. *)
Definition analyze_frame (st : Loop) (input : Q * Analyzer.Frame) : Loop :=
  let '(ts, frame) := input in
  let current_phase := Analyzer.detect_round_phase frame in
  let score_info := Analyzer.analyze_scoreboard frame in
  let events_this_frame := events_of_frame st ts frame in
  let c := self st in
  let c1 := {| events_detected := (events_detected c ++ events_this_frame)%list;
               commentary_segments := commentary_segments c;
               rng := rng c |} in
  {| self := comment_on_events c1 events_this_frame;
     last_round_phase := next_round_phase (last_round_phase st) current_phase;
     last_score_info := next_score_info (last_score_info st) score_info |}.

(** The [while] loop, over the frames it reads, each with its timestamp
    [frame_count / fps]. *)
Definition analyze_frames (c : Commentator) (frames : list (Q * Analyzer.Frame)) : Loop :=
  fold_left analyze_frame frames (loop_start c).

Definition commentary_interval : Z := 12.

Definition has_nearby_commentary (segs : list Segment) (current_time : Z) : bool :=
  existsb (fun seg => Qltb (Qabs (timestamp seg - inject_Z current_time)) 5) segs.

Definition general_segment (current_time : Z) (chosen : string) : Segment :=
  {| timestamp := inject_Z current_time;
     text := chosen;
     event_type := "general";
     importance := 2;
     style := "analysis";
     audio_file := NoKey |}.

(** One iteration of the loop of [_add_general_commentary]. *)
Definition add_general_at (self : Commentator) (current_time : Z) : Commentator :=
  if has_nearby_commentary (commentary_segments self) current_time then self
  else
    let '(chosen, r) := choice (rng self) general_comments "" in
    {| events_detected := events_detected self;
       commentary_segments :=
         (commentary_segments self ++ [general_segment current_time chosen])%list;
       rng := r |}.

(** [while current_time < duration], with a bound on the iterations;
    [None] when the bound is reached before the loop ends. *)
Fixpoint general_loop (fuel : nat) (current_time : Z) (duration : Q) (self : Commentator)
  : option Commentator :=
  match fuel with
  | O => None
  | S fuel' =>
      if Qltb (inject_Z current_time) duration
      then general_loop fuel' (current_time + commentary_interval)%Z duration
                        (add_general_at self current_time)
      else Some self
  end.

Definition _add_general_commentary (fuel : nat) (duration : Q) (self : Commentator)
  : option Commentator :=
  general_loop fuel 0 duration self.

(** Iterations that always suffice for a video of the given duration. *)
Definition enough_fuel (duration : Q) : nat := S (Z.to_nat (Qceiling duration)).

Definition analyze_gameplay_video
    (fuel : nat) (c : Commentator) (frames : list (Q * Analyzer.Frame)) (duration : Q)
  : option Commentator :=
  _add_general_commentary fuel duration (self (analyze_frames c frames)).

(** What [_save_results] writes, statistics apart. *)
Record Results := {
  saved_events : list Analyzer.GameplayEvent;
  saved_segments : list Segment
}.

(** The loop of [generate_voice_commentary] from index [i] on.
    [synth i text] tells whether the [try] block of iteration [i] runs to
    its end (the speech request and the writing of the file); when it
    raises, the handler only prints. *)
Fixpoint voice_loop (synth : nat -> string -> bool) (i : nat) (segs : list Segment)
  : list Segment :=
  match segs with
  | [] => []
  | segment :: rest =>
      (if synth i (text segment)
       then set_audio_file segment
              (Val {| stem := "gameplay"; stamp := timestamp segment |})
       else segment)
      :: voice_loop synth (S i) rest
  end.

(** [generate_voice_commentary]: the commentator afterwards, and what was
    saved, if anything. *)
Definition generate_voice_commentary
    (voice_enabled : bool) (synth : nat -> string -> bool) (self : Commentator)
  : Commentator * option Results :=
  if negb voice_enabled then (self, None)
  else
    let sorted := sort_by_key timestamp (commentary_segments self) in
    let voiced := voice_loop synth 0 sorted in
    let self' := {| events_detected := events_detected self;
                    commentary_segments := voiced;
                    rng := rng self |} in
    (self', Some {| saved_events := events_detected self';
                    saved_segments := commentary_segments self' |}).

End Enhanced.

(** ** The classes imported from [buycommentary]

    [EventType], [Event] and the commentary objects come from an import;
    the declarations below are the members and fields that the sources
    use. *)

Module BuyCommentary.

Inductive EventType := REQUESTING_WEAPON | WEAPON_OWNED | SHIELD_OWNED.

Record Event := {
  timestamp : Q;
  event_type : EventType;
  player : string;
  weapon : string
}.

Record Commentary := {
  text : string;
  caster : string
}.

(** The exceptions of a call, as far as the handlers of the sources
    tell them apart: [except ImportError] against [except Exception]. *)
Inductive Exception := ImportError | OtherException.

(** A call of [commentator.generate_commentary]: it raises, or returns a
    commentary or [None]. *)
Inductive Outcome :=
| Raised (e : Exception)
| Returned (c : option Commentary).

End BuyCommentary.

(** ** VideoCommentaryGenerator (video_commentary_generator.py) *)

Module Video.

Import BuyCommentary.

Local Open Scope string_scope.

(** The dict [weapons], in the order of its declaration, which is the
    order in which [weapons.items()] iterates. *)
Definition weapons : list (string * list string) :=
  [ ("vandal", ["vandal"; "vandl"; "vanda"]);
    ("phantom", ["phantom"; "fantom"; "phant"]);
    ("operator", ["operator"; "op"; "opertr"]);
    ("ghost", ["ghost"; "gost"; "ghst"]);
    ("sheriff", ["sheriff"; "sherif"]);
    ("classic", ["classic"; "clasic"]);
    ("spectre", ["spectre"; "specter"]);
    ("judge", ["judge"; "juge"]);
    ("odin", ["odin"; "odn"]);
    ("ares", ["ares"; "are"]) ].

(** [for weapon, variants in table: if any(variant in text ...): return
    weapon]; [None] when the loop runs out. *)
Fixpoint first_weapon (table : list (string * list string)) (text : string)
  : option string :=
  match table with
  | [] => None
  | (weapon, variants) :: table' =>
      if Text.any_in variants text then Some weapon
      else first_weapon table' text
  end.

Definition mk_event (ts : Q) (ty : EventType) (w : string) : Event :=
  {| timestamp := ts; event_type := ty; player := "Player"; weapon := w |}.

(** The body of [_classify_text_to_event]. *)
Definition classify_text (raw : string) (ts : Q) : option Event :=
  let text := Text.strip (Text.lower raw) in
  let requesting :=
    if Text.any_in ["requesting"; "request"; "req"] text
    then first_weapon weapons text else None in
  match requesting with
  | Some w => Some (mk_event ts REQUESTING_WEAPON w)
  | None =>
      let owned :=
        if Text.any_in ["owned"; "ownd"; "own"; "equipped"; "omned"] text
        then first_weapon weapons text else None in
      match owned with
      | Some w => Some (mk_event ts WEAPON_OWNED w)
      | None =>
          if Text.any_in ["shield"; "armor"; "shields"] text
             && Text.any_in ["owned"; "equipped"; "omned"] text
          then Some (mk_event ts SHIELD_OWNED "shields")
          else None
      end
  end.

(** An entry of [ocr_results['results']]: the value under ['text'], when
    the key is there. *)
Definition OcrEntry : Type := option string.

(** What the perception stage leaves of a frame: [None] when the events
    stay empty before any text is read (no processor, no prediction, or
    OCR results without ['results']). *)
Definition FrameOcr : Type := option (list OcrEntry).

(** An entry of [self.all_commentary]. *)
Record Entry := {
  entry_timestamp : Q;
  entry_text : string;
  entry_events : list Event
}.

(** The dict [frame_result]. *)
Record FrameResult := {
  fr_timestamp : Q;
  fr_events : list Event;
  fr_commentary : option string
}.

Section Generator.

(** The state of the [BuyPhaseCommentator] object and its method. *)
Variable CommentatorState : Type.
Variable generate_commentary : CommentatorState -> Event -> Outcome * CommentatorState.

(** The attributes of the generator that the pipeline reads and writes;
    [commentator] is [None] when [_initialize_processors] failed. *)
Record Generator := {
  commentary_interval : Q;
  commentator : option CommentatorState;
  last_commentary_time : Q;
  all_commentary : list Entry;
  frame_analysis : list FrameResult
}.

Definition new_generator (interval : Q) (c : option CommentatorState) : Generator :=
  {| commentary_interval := interval; commentator := c;
     last_commentary_time := 0; all_commentary := []; frame_analysis := [] |}.

(** Methods are computations on the generator. *)
Definition M (A : Type) : Type := Generator -> A * Generator.

Definition ret (A : Type) (a : A) : M A := fun g => (a, g).

Definition bind (A B : Type) (m : M A) (k : A -> M B) : M B :=
  fun g => let '(a, g') := m g in k a g'.

Notation "x <- m ;; k" := (bind m (fun x => k))
  (at level 61, m at next level, right associativity).

Definition _classify_text_to_event (raw : string) (ts : Q) : M (option Event) :=
  ret (classify_text raw ts).

(** The loop of [_extract_events_from_ocr]. *)
Fixpoint extract_loop (results : list OcrEntry) (ts : Q) : M (list Event) :=
  match results with
  | [] => ret []
  | result :: rest =>
      let text := Text.strip (Text.lower (match result with
                                          | Some t => t
                                          | None => ""
                                          end)) in
      if String.eqb text "" then extract_loop rest ts
      else
        event <- _classify_text_to_event text ts ;;
        events <- extract_loop rest ts ;;
        ret (match event with
             | Some e => e :: events
             | None => events
             end)
  end.

Definition _extract_events_from_ocr (ocr_results : FrameOcr) (ts : Q) : M (list Event) :=
  match ocr_results with
  | None => ret []
  | Some results => extract_loop results ts
  end.

Definition set_commentator (g : Generator) (c : CommentatorState) (last : Q) : Generator :=
  {| commentary_interval := commentary_interval g;
     commentator := Some c;
     last_commentary_time := last;
     all_commentary := all_commentary g;
     frame_analysis := frame_analysis g |}.

Definition generate_commentary_for_events (events : list Event) (ts : Q)
  : M (option string) :=
  fun g =>
    match events, commentator g with
    | [], _ => (None, g)
    | _, None => (None, g)
    | event :: _, Some c =>
        if Qltb (ts - last_commentary_time g) (commentary_interval g)
        then (None, g)
        else
          match generate_commentary c event with
          | (Returned (Some commentary), c') =>
              (Some (text commentary), set_commentator g c' ts)
          | (Returned None, c') =>
              (None, set_commentator g c' (last_commentary_time g))
          | (Raised _, c') =>
              (None, set_commentator g c' (last_commentary_time g))
          end
    end.

Definition append_commentary (e : Entry) : M unit :=
  fun g => (tt, {| commentary_interval := commentary_interval g;
                   commentator := commentator g;
                   last_commentary_time := last_commentary_time g;
                   all_commentary := (all_commentary g ++ [e])%list;
                   frame_analysis := frame_analysis g |}).

Definition append_analysis (r : FrameResult) : M unit :=
  fun g => (tt, {| commentary_interval := commentary_interval g;
                   commentator := commentator g;
                   last_commentary_time := last_commentary_time g;
                   all_commentary := all_commentary g;
                   frame_analysis := (frame_analysis g ++ [r])%list |}).

(** The body of the loop of [process_video], on a frame at [ts]. *)
Definition process_one (input : Q * FrameOcr) : M unit :=
  let '(ts, ocr) := input in
  events <- _extract_events_from_ocr ocr ts ;;
  match events with
  | [] =>
      append_analysis {| fr_timestamp := ts; fr_events := events;
                         fr_commentary := None |}
  | _ :: _ =>
      commentary <- generate_commentary_for_events events ts ;;
      _ <- match commentary with
           | Some txt =>
               if String.eqb txt "" then ret tt
               else append_commentary {| entry_timestamp := ts;
                                         entry_text := txt;
                                         entry_events := events |}
           | None => ret tt
           end ;;
      append_analysis {| fr_timestamp := ts; fr_events := events;
                         fr_commentary := commentary |}
  end.

Fixpoint process_frames (frames : list (Q * FrameOcr)) : M unit :=
  match frames with
  | [] => ret tt
  | f :: rest => _ <- process_one f ;; process_frames rest
  end.

(** [process_video]: the generator after the loop; [_save_results]
    then writes its [all_commentary]. *)
Definition process_video (g : Generator) (frames : list (Q * FrameOcr)) : Generator :=
  snd (process_frames frames g).

End Generator.

End Video.

(** ** VoiceCommentaryGenerator (voice_commentary_generator.py) *)

Module Voice.

Local Open Scope string_scope.

(** An entry of [self.commentary_segments]. *)
Record Segment := {
  timestamp : Q;
  text : string;
  style : string;
  frame_path : string;
  audio_file : Slot AudioPath
}.

Definition set_audio_file (s : Segment) (a : Slot AudioPath) : Segment :=
  {| timestamp := timestamp s; text := text s; style := style s;
     frame_path := frame_path s; audio_file := a |}.

Record Generator := {
  commentary_segments : list Segment;
  audio_files : list AudioPath
}.

(** One iteration of the loop of [generate_voice_commentary].
    [synth i text] tells whether the [try] block of iteration [i] runs
    to its end; when it raises, the handler stores [None]. *)
Definition voice_step (synth : nat -> string -> bool) (i : nat) (segment : Segment)
  : Segment * list AudioPath :=
  if synth i (text segment)
  then let audio_path := {| stem := "commentary"; stamp := timestamp segment |} in
       (set_audio_file segment (Val audio_path), [audio_path])
  else (set_audio_file segment Null, []).

Fixpoint voice_loop (synth : nat -> string -> bool) (i : nat) (segs : list Segment)
  : list Segment * list AudioPath :=
  match segs with
  | [] => ([], [])
  | segment :: rest =>
      let '(segment', files) := voice_step synth i segment in
      let '(rest', files') := voice_loop synth (S i) rest in
      (segment' :: rest', (files ++ files')%list)
  end.

Definition generate_voice_commentary
    (voice_enabled : bool) (synth : nat -> string -> bool) (self : Generator)
  : Generator :=
  if negb voice_enabled then self
  else
    let '(segs, files) := voice_loop synth 0 (commentary_segments self) in
    {| commentary_segments := segs;
       audio_files := (audio_files self ++ files)%list |}.

End Voice.

(** ** AdvancedVideoCommentaryGenerator (advanced_video_commentary.py) *)

Module Advanced.

Local Open Scope string_scope.

(** An entry of [self.processed_frames]. *)
Record FrameInfo := {
  frame_timestamp : Q;
  frame_number : Z;
  extracted_index : Z
}.

(** [int(x)] on a float: truncation towards zero. *)
Definition int_of_float (x : Q) : Z := Z.quot (Qnum x) (Zpos (Qden x)).

(** The loop of [extract_frames_for_analysis] from frame [frame_count]
    on, over the [n] frames that [cap.read()] still delivers. *)
Fixpoint extract_loop (fps : Q) (frame_interval : Z) (n : nat)
    (frame_count extracted_count : Z) : list FrameInfo :=
  match n with
  | O => []
  | S n' =>
      if (frame_count mod frame_interval =? 0)%Z
      then {| frame_timestamp := inject_Z frame_count / fps;
              frame_number := frame_count;
              extracted_index := extracted_count |}
           :: extract_loop fps frame_interval n' (frame_count + 1) (extracted_count + 1)
      else extract_loop fps frame_interval n' (frame_count + 1) extracted_count
  end.

(** [extract_frames_for_analysis] on a video of [n] frames; [None] when
    [frame_count % frame_interval] divides by zero. *)
Definition extract_frames_for_analysis (fps interval_seconds : Q) (n : nat)
  : option (list FrameInfo) :=
  let frame_interval := int_of_float (fps * interval_seconds) in
  match n with
  | O => Some []
  | S _ =>
      if (frame_interval =? 0)%Z then None
      else Some (extract_loop fps frame_interval n 0 0)
  end.

(** An entry of a detection's ['detections']: the value under
    ['mock_ocr_text'], when the key is there. *)
Definition Prediction : Type := option string.

Record Detection := {
  det_timestamp : Q;
  detections : list Prediction
}.

Definition mock_weapons : list string :=
  ["Vandal"; "Phantom"; "Operator"; "Ghost"; "Sheriff"; "Spectre"; "Judge"].
Definition mock_statuses : list string := ["OWNED"; "REQUESTING"; "EQUIPPED"].
Definition mock_players : list string :=
  ["TenZ"; "ScreaM"; "Shroud"; "Player1"; "Player2"].

Definition _generate_mock_ocr_text (index : nat) : string :=
  let weapon := nth (index mod List.length mock_weapons) mock_weapons "" in
  let status := nth (index mod List.length mock_statuses) mock_statuses "" in
  let player := nth (index mod List.length mock_players) mock_players "" in
  status ++ " " ++ weapon ++ " " ++ player.

(** The loop of [_generate_mock_detections] from index [i] on. *)
Fixpoint mock_loop (i : nat) (frames : list FrameInfo) : list Detection :=
  match frames with
  | [] => []
  | frame_info :: rest =>
      if (i mod 3 =? 0)%nat
      then {| det_timestamp := frame_timestamp frame_info;
              detections := [Some (_generate_mock_ocr_text i)] |}
           :: mock_loop (S i) rest
      else mock_loop (S i) rest
  end.

(** The two files of detections in [self.output_dir], which is the
    directory [advanced_video_commentary] on every run: [None] for a
    file that is not there. *)
Record OutputDir := {
  detections_file : option (list Detection);       (* buy_phase_detections.json *)
  mock_detections_file : option (list Detection)   (* mock_buy_phase_detections.json *)
}.

(** [_generate_mock_detections] writes the mock file. *)
Definition _generate_mock_detections (frames : list FrameInfo) (dir : OutputDir)
  : OutputDir :=
  {| detections_file := detections_file dir;
     mock_detections_file := Some (mock_loop 0 frames) |}.

(** The loop of [run_buy_phase_detection] with a processor: a frame gets
    a detection when the processor returns predictions for it. *)
Fixpoint yolo_loop (processor : FrameInfo -> option (list Prediction))
    (frames : list FrameInfo) : list Detection :=
  match frames with
  | [] => []
  | frame_info :: rest =>
      match processor frame_info with
      | Some (p :: ps) =>
          {| det_timestamp := frame_timestamp frame_info; detections := p :: ps |}
          :: yolo_loop processor rest
      | _ => yolo_loop processor rest
      end
  end.

(** What [run_buy_phase_detection] finds: no model file [best.pt], an
    exception from the import of [buyphase] or from the constructor, or
    a processor; [process_single_image] gives [None] where it raises or
    returns nothing. *)
Inductive Yolo :=
| NoModel
| YoloRaised (e : BuyCommentary.Exception)
| Processor (process_single_image : FrameInfo -> option (list Prediction)).

(** [run_buy_phase_detection]: the output directory afterwards, [None]
    when an exception escapes. *)
Definition run_buy_phase_detection (yolo : Yolo) (frames : list FrameInfo)
    (dir : OutputDir) : option OutputDir :=
  match yolo with
  | NoModel => Some (_generate_mock_detections frames dir)
  | YoloRaised BuyCommentary.ImportError => Some (_generate_mock_detections frames dir)
  | YoloRaised BuyCommentary.OtherException => None
  | Processor process_single_image =>
      Some {| detections_file := Some (yolo_loop process_single_image frames);
              mock_detections_file := mock_detections_file dir |}
  end.

(** The detections that [generate_ai_commentary] loads:
    [buy_phase_detections.json] when it exists, else the mock file, else
    none. *)
Definition load_detections (dir : OutputDir) : list Detection :=
  match detections_file dir with
  | Some dets => dets
  | None =>
      match mock_detections_file dir with
      | Some dets => dets
      | None => []
      end
  end.

Definition _extract_weapon_from_text (text : string) : string :=
  match find (fun weapon => Text.contains (Text.upper weapon) (Text.upper text))
             mock_weapons with
  | Some weapon => weapon
  | None => "Unknown"
  end.

Definition _extract_player_from_text (text : string) : string :=
  match find (fun player => Text.contains player text) mock_players with
  | Some player => player
  | None => "Player"
  end.

(** An entry of [self.commentary_segments]. *)
Record Segment := {
  timestamp : Q;
  text : string;
  caster : string;
  event_type : string;
  player : string;
  weapon : string
}.

(** A template of the backup commentary, cut at its placeholders. *)
Inductive Piece := Lit (s : string) | PlayerField | WeaponField.

Fixpoint format (template : list Piece) (player weapon : string) : string :=
  match template with
  | [] => ""
  | Lit s :: t => s ++ format t player weapon
  | PlayerField :: t => player ++ format t player weapon
  | WeaponField :: t => weapon ++ format t player weapon
  end.

Definition requesting_templates : list (list Piece) :=
  [ [PlayerField; Lit " is calling for a "; WeaponField; Lit "! The team needs to step up!"];
    [Lit "Big request from "; PlayerField; Lit " — they want that "; WeaponField; Lit "!"];
    [PlayerField; Lit " asking for backup! They need a "; WeaponField; Lit " drop!"];
    [Lit "Communication is key! "; PlayerField; Lit " wants a "; WeaponField;
     Lit " — who's got their back?"];
    [Lit "Strategic call from "; PlayerField; Lit "! "; WeaponField;
     Lit " request on the table!"] ].

Definition owned_templates : list (list Piece) :=
  [ [PlayerField; Lit " locks in the "; WeaponField; Lit "! Let's go!"];
    [Lit "Full commitment! "; PlayerField; Lit " grabs the "; WeaponField; Lit "!"];
    [PlayerField; Lit " locked and loaded with that "; WeaponField; Lit "!"];
    [Lit "Business time! "; PlayerField; Lit " secures the "; WeaponField; Lit "!"];
    [Lit "Perfect buy from "; PlayerField; Lit " — "; WeaponField; Lit " in hand!"] ].

(** The segments and the generator after the backup commentary of one
    prediction. *)
Definition backup_one (ts : Q) (det : Prediction) (acc : list Segment * Rng)
  : list Segment * Rng :=
  let '(segs, r) := acc in
  let mock_text := match det with Some t => t | None => "" end in
  let wpn := _extract_weapon_from_text mock_text in
  let plr := _extract_player_from_text mock_text in
  if Text.contains "REQUESTING" mock_text then
    let '(template, r') := choice r requesting_templates [] in
    ((segs ++ [ {| timestamp := ts; text := format template plr wpn;
                   caster := "Hype"; event_type := "requesting_weapon";
                   player := plr; weapon := wpn |} ])%list, r')
  else if Text.contains "OWNED" mock_text then
    let '(template, r') := choice r owned_templates [] in
    ((segs ++ [ {| timestamp := ts; text := format template plr wpn;
                   caster := "Hype"; event_type := "weapon_owned";
                   player := plr; weapon := wpn |} ])%list, r')
  else (segs, r).

Definition _generate_backup_commentary (dets : list Detection) (acc : list Segment * Rng)
  : list Segment * Rng :=
  fold_left (fun a detection =>
               fold_left (fun a' det => backup_one (det_timestamp detection) det a')
                         (detections detection) a)
            dets acc.

(** What [from buycommentary import ...] and [BuyPhaseCommentator()]
    give: an exception, or the commentator object. *)
Inductive System (CommentatorState : Type) :=
| Unavailable (e : BuyCommentary.Exception)
| Available (c : CommentatorState).

Arguments Unavailable {CommentatorState}.
Arguments Available {CommentatorState}.

(** How a run of the existing system ends: at the end of its loops, or
    with an exception; [self.commentary_segments] then keeps the
    segments appended before it. *)
Inductive Run (CommentatorState : Type) :=
| Done (segs : list Segment) (c : CommentatorState)
| Escaped (e : BuyCommentary.Exception) (segs : list Segment).

Arguments Done {CommentatorState}.
Arguments Escaped {CommentatorState}.

Section ExistingSystem.

(** The state of the [BuyPhaseCommentator] object and its method. *)
Variable CommentatorState : Type.
Variable generate_commentary :
  CommentatorState -> BuyCommentary.Event -> BuyCommentary.Outcome * CommentatorState.

(** The commentary of one prediction by the existing system. *)
Definition existing_one (ts : Q) (det : Prediction)
    (segs : list Segment) (c : CommentatorState) : Run CommentatorState :=
  let mock_text := match det with Some t => t | None => "" end in
  let wpn := _extract_weapon_from_text mock_text in
  let plr := _extract_player_from_text mock_text in
  let run (ty : BuyCommentary.EventType) (name : string) :=
    match generate_commentary c
            {| BuyCommentary.timestamp := ts; BuyCommentary.event_type := ty;
               BuyCommentary.player := plr; BuyCommentary.weapon := wpn |} with
    | (BuyCommentary.Raised e, _) => Escaped e segs
    | (BuyCommentary.Returned None, c') => Done segs c'
    | (BuyCommentary.Returned (Some commentary), c') =>
        Done (segs ++ [ {| timestamp := ts;
                           text := BuyCommentary.text commentary;
                           caster := BuyCommentary.caster commentary;
                           event_type := name;
                           player := plr; weapon := wpn |} ])%list c'
    end in
  if Text.contains "REQUESTING" mock_text
  then run BuyCommentary.REQUESTING_WEAPON "requesting_weapon"
  else if Text.contains "OWNED" mock_text
  then run BuyCommentary.WEAPON_OWNED "weapon_owned"
  else Done segs c.

(** The inner loop, over the predictions of one detection. *)
Fixpoint existing_dets (ts : Q) (dets : list Prediction)
    (segs : list Segment) (c : CommentatorState) : Run CommentatorState :=
  match dets with
  | [] => Done segs c
  | det :: rest =>
      match existing_one ts det segs c with
      | Done segs' c' => existing_dets ts rest segs' c'
      | Escaped e segs' => Escaped e segs'
      end
  end.

(** The outer loop of [_use_existing_commentary_system]. *)
Fixpoint _use_existing_commentary_system (dets : list Detection)
    (segs : list Segment) (c : CommentatorState) : Run CommentatorState :=
  match dets with
  | [] => Done segs c
  | detection :: rest =>
      match existing_dets (det_timestamp detection) (detections detection) segs c with
      | Done segs' c' => _use_existing_commentary_system rest segs' c'
      | Escaped e segs' => Escaped e segs'
      end
  end.

(** [generate_ai_commentary]: [self.commentary_segments] afterwards,
    [None] when an exception escapes.  The handler of [ImportError]
    encloses the whole run of the existing system, and the backup then
    goes through all the detections, appending to the segments that are
    already there. *)
Definition generate_ai_commentary (system : System CommentatorState) (r : Rng)
    (dir : OutputDir) (segs : list Segment) : option (list Segment) :=
  match load_detections dir with
  | [] => Some segs
  | (_ :: _) as dets =>
      match system with
      | Unavailable BuyCommentary.ImportError =>
          Some (fst (_generate_backup_commentary dets (segs, r)))
      | Unavailable BuyCommentary.OtherException => None
      | Available c =>
          match _use_existing_commentary_system dets segs c with
          | Done segs' _ => Some segs'
          | Escaped BuyCommentary.ImportError segs' =>
              Some (fst (_generate_backup_commentary dets (segs', r)))
          | Escaped BuyCommentary.OtherException _ => None
          end
      end
  end.

(** [process_video] on a video of [n] frames, with the output directory
    as the run finds it: the ['commentary_segments'] that
    [save_final_results] writes, [None] when an exception ends the
    pipeline before it saves. *)
Definition process_video
    (fps : Q) (n : nat) (yolo : Yolo)
    (system : System CommentatorState) (r : Rng) (dir : OutputDir)
  : option (list Segment) :=
  (* [analyze_video_properties] divides the frame count by [fps] *)
  if Qeq_bool fps 0 then None
  else
    match extract_frames_for_analysis fps 1 n with
    | None => None
    | Some processed_frames =>
        match run_buy_phase_detection yolo processed_frames dir with
        | None => None
        | Some dir' => generate_ai_commentary system r dir' []
        end
    end.

End ExistingSystem.

End Advanced.

(** * Specification vocabulary and sample inputs *)

Definition score_consistent (s : Analyzer.ScoreInfo) : Prop :=
  Analyzer.round s = (Analyzer.team1_score s + Analyzer.team2_score s + 1)%Z.

Definition frame_of_scoreboard (results : list Analyzer.OcrResult) : Analyzer.Frame :=
  {| Analyzer.kill_feed_region := Some [];
     Analyzer.timer_region := Some [];
     Analyzer.center_region := Some [];
     Analyzer.scoreboard_region := Some results;
     Analyzer.gray_mask_sum := 0 |}.

(** A frame that shows text at the timer only; the scoreboard region
    contains the timer region and reads the same text. *)
Definition frame_of_timer (results : list Analyzer.OcrResult) : Analyzer.Frame :=
  {| Analyzer.kill_feed_region := Some [];
     Analyzer.timer_region := Some results;
     Analyzer.center_region := Some [];
     Analyzer.scoreboard_region := Some results;
     Analyzer.gray_mask_sum := 0 |}.

(** The timer region shows neither a BUY/PREP keyword nor a numeric
    countdown (or is not read at all). *)
Definition timer_unrecognized (f : Analyzer.Frame) : bool :=
  match Analyzer.timer_region f with
  | None => true
  | Some results =>
      forallb (fun '(text, _) =>
                 negb (Text.any_in ["BUY"; "PREP"]%string (Text.upper text))
                 && match Text.search_pair ":" text with
                    | Some _ => false
                    | None => true
                    end)
              results
  end.

(** A segment that [_add_general_commentary] produced. *)
Definition is_filler (s : Enhanced.Segment) : Prop :=
  Enhanced.event_type s = "general"%string
  /\ Enhanced.importance s = 2%Z
  /\ Enhanced.style s = "analysis"%string
  /\ Enhanced.audio_file s = NoKey.

(** [f] lies at least 5 seconds from every segment of [segs]. *)
Definition clear_of (segs : list Enhanced.Segment) (f : Enhanced.Segment) : Prop :=
  forall s, In s segs ->
            (5 <= Qabs (Enhanced.timestamp s - Enhanced.timestamp f))%Q.

(** Segments in non-decreasing order whose timestamps are at most [t]. *)
Definition upto (t : Q) (segs : list Advanced.Segment) : Prop :=
  sorted_by_key Advanced.timestamp segs
  /\ Forall (fun s => (Advanced.timestamp s <= t)%Q) segs.

(** Order of frames and of detections, by timestamp. *)
Definition frames_ordered : list Advanced.FrameInfo -> Prop :=
  StronglySorted (fun a b => (Advanced.frame_timestamp a <= Advanced.frame_timestamp b)%Q).

Definition detections_ordered : list Advanced.Detection -> Prop :=
  StronglySorted (fun a b => (Advanced.det_timestamp a <= Advanced.det_timestamp b)%Q).

(** The detections file that a run finds in the output directory, when
    there is one, is in order of timestamp. *)
Definition earlier_ordered (dir : Advanced.OutputDir) : Prop :=
  forall dets, Advanced.detections_file dir = Some dets -> detections_ordered dets.

(** The output directory before the first run. *)
Definition empty_dir : Advanced.OutputDir :=
  {| Advanced.detections_file := None; Advanced.mock_detections_file := None |}.

(** The detections that a run of [process_video] loads for its
    commentary. *)
Definition loaded_detections (fps : Q) (n : nat) (yolo : Advanced.Yolo)
    (dir : Advanced.OutputDir) : list Advanced.Detection :=
  match Advanced.extract_frames_for_analysis fps 1 n with
  | Some frames =>
      match Advanced.run_buy_phase_detection yolo frames dir with
      | Some dir' => Advanced.load_detections dir'
      | None => []
      end
  | None => []
  end.

(** The segments that a run of the existing system leaves in
    [self.commentary_segments]. *)
Definition segments_of_run (CommentatorState : Type)
    (run : Advanced.Run CommentatorState) : list Advanced.Segment :=
  match run with
  | Advanced.Done segs _ => segs
  | Advanced.Escaped _ segs => segs
  end.

(** The backup takes over from the existing system: a call of
    [generate_commentary] raises [ImportError] after the existing system
    has appended segments. *)
Definition backup_takes_over (CommentatorState : Type)
    (generate_commentary :
       CommentatorState -> BuyCommentary.Event -> BuyCommentary.Outcome * CommentatorState)
    (system : Advanced.System CommentatorState) (dets : list Advanced.Detection) : bool :=
  match system with
  | Advanced.Available c =>
      match Advanced._use_existing_commentary_system generate_commentary dets [] c with
      | Advanced.Escaped BuyCommentary.ImportError (_ :: _) => true
      | _ => false
      end
  | Advanced.Unavailable _ => false
  end.

(** A frame in which only the kill feed shows text. *)
Definition frame_of_kill_feed (results : list Analyzer.OcrResult) : Analyzer.Frame :=
  {| Analyzer.kill_feed_region := Some results;
     Analyzer.timer_region := Some [];
     Analyzer.center_region := Some [];
     Analyzer.scoreboard_region := Some [];
     Analyzer.gray_mask_sum := 0 |}.

(** A 30-second video with one elimination at t = 20, analysed. *)
Definition sample_commentator : Enhanced.Commentator :=
  match Enhanced.analyze_gameplay_video (Enhanced.enough_fuel 30)
          (Enhanced.new_commentator 7%nat)
          [(20, frame_of_kill_feed [("Jett Vandal Sova"%string, 0.9)])] 30 with
  | Some c => c
  | None => Enhanced.new_commentator 7%nat
  end.

(** A speech service that fails on every second request. *)
Definition flaky_synth (i : nat) (_ : string) : bool := Nat.even i.

(** A commentator without state that always answers. *)
Definition plain_commentary (_ : unit) (e : BuyCommentary.Event)
  : BuyCommentary.Outcome * unit :=
  (BuyCommentary.Returned
     (Some {| BuyCommentary.text := ("Look at that " ++ BuyCommentary.weapon e)%string;
              BuyCommentary.caster := "Hype"%string |}), tt).

(** A commentator that counts its calls and raises [ImportError] in the
    third, as a module that it imports on first use would. *)
Definition raises_on_third (calls : nat) (e : BuyCommentary.Event)
  : BuyCommentary.Outcome * nat :=
  if (calls =? 2)%nat
  then (BuyCommentary.Raised BuyCommentary.ImportError, S calls)
  else (BuyCommentary.Returned
          (Some {| BuyCommentary.text := ("Look at that " ++ BuyCommentary.weapon e)%string;
                   BuyCommentary.caster := "Hype"%string |}), S calls).

(** An output directory that holds detections which are not in order of
    timestamp. *)
Definition unordered_dir : Advanced.OutputDir :=
  {| Advanced.detections_file :=
       Some [ {| Advanced.det_timestamp := 5;
                 Advanced.detections := [Some "OWNED Vandal TenZ"%string] |};
              {| Advanced.det_timestamp := 2;
                 Advanced.detections := [Some "REQUESTING Ghost Shroud"%string] |} ];
     Advanced.mock_detections_file := None |}.

(** The aliases of an entry of the weapon table match the text. *)
Definition entry_matches (text : string) (entry : string * list string) : bool :=
  Text.any_in (snd entry) text.

(** The keywords that [_classify_text_to_event] looks for before it
    consults the weapon table. *)
Definition requesting_keywords : list string :=
  ["requesting"; "request"; "req"]%string.

Definition owned_keywords : list string :=
  ["owned"; "ownd"; "own"; "equipped"; "omned"]%string.

(** [w] is the first weapon of the table, in the order of its
    declaration, with an alias in the text. *)
Definition first_declared (text w : string) : Prop :=
  exists before variants after,
    Video.weapons = (before ++ (w, variants) :: after)%list
    /\ Text.any_in variants text = true
    /\ forallb (fun entry => negb (entry_matches text entry)) before = true.

(** What [_extract_events_from_ocr] computes from one entry. *)
Definition events_of_entry (ts : Q) (result : Video.OcrEntry) : list BuyCommentary.Event :=
  let text := Text.strip (Text.lower (match result with
                                      | Some t => t
                                      | None => ""%string
                                      end)) in
  if String.eqb text "" then []
  else match Video.classify_text text ts with
       | Some e => [e]
       | None => []
       end.

(** The events of a frame, as a function of its OCR results alone. *)
Definition events_of_ocr (ocr : Video.FrameOcr) (ts : Q) : list BuyCommentary.Event :=
  match ocr with
  | None => []
  | Some results => flat_map (events_of_entry ts) results
  end.

(** A generator with a history: commentary has been emitted, frames
    analysed. *)
Definition used_generator : Video.Generator unit :=
  {| Video.commentary_interval := 2;
     Video.commentator := Some tt;
     Video.last_commentary_time := 12;
     Video.all_commentary :=
       [ {| Video.entry_timestamp := 12; Video.entry_text := "Look at that vandal"%string;
            Video.entry_events := [] |} ];
     Video.frame_analysis := [] |}.

(** Segments as the analysis creates them: without the ['audio_file']
    key. *)
Definition without_audio (segs : list Enhanced.Segment) : Prop :=
  Forall (fun s => Enhanced.audio_file s = NoKey) segs.

(** Two segments awaiting their audio. *)
Definition sample_voice_generator : Voice.Generator :=
  {| Voice.commentary_segments :=
       [ {| Voice.timestamp := 0; Voice.text := "We're in the buy phase now."%string;
            Voice.style := "play_by_play"%string; Voice.frame_path := "f0"%string;
            Voice.audio_file := NoKey |};
         {| Voice.timestamp := 12; Voice.text := "Smart economic management."%string;
            Voice.style := "analysis"%string; Voice.frame_path := "f4"%string;
            Voice.audio_file := NoKey |};
         {| Voice.timestamp := 24; Voice.text := "Full send mode activated!"%string;
            Voice.style := "excitement"%string; Voice.frame_path := "f8"%string;
            Voice.audio_file := NoKey |} ];
     Voice.audio_files := [] |}.

(** A speech service that fails on the second request only. *)
Definition fails_second (i : nat) (_ : string) : bool := negb (i =? 1)%nat.

(** Timestamps, in order of emission, each at least [interval] after
    every earlier one. *)
Definition spaced (interval : Q) (stamps : list Q) : Prop :=
  ForallOrdPairs (fun earlier later => (interval <= later - earlier)%Q) stamps.

(** The timestamps of the commentary emitted so far. *)
Definition emitted (CommentatorState : Type) (g : Video.Generator CommentatorState)
  : list Q :=
  map Video.entry_timestamp (Video.all_commentary g).

(** What the throttle maintains: emissions are spaced by the interval,
    and none is later than [last_commentary_time]. *)
Definition throttled (CommentatorState : Type) (g : Video.Generator CommentatorState)
  : Prop :=
  spaced (Video.commentary_interval g) (emitted g)
  /\ Forall (fun t => (t <= Video.last_commentary_time g)%Q) (emitted g).

(** The entries that a frame with the given events adds to
    [all_commentary]: at most one, made from the first event. *)
Definition new_entries (CommentatorState : Type)
    (generate_commentary :
       CommentatorState -> BuyCommentary.Event -> BuyCommentary.Outcome * CommentatorState)
    (g : Video.Generator CommentatorState) (ts : Q) (events : list BuyCommentary.Event)
  : list Video.Entry :=
  match events with
  | [] => []
  | first :: _ =>
      match fst (Video.generate_commentary_for_events generate_commentary [first] ts g) with
      | Some txt =>
          if String.eqb txt "" then []
          else [ {| Video.entry_timestamp := ts; Video.entry_text := txt;
                    Video.entry_events := events |} ]
      | None => []
      end
  end.

(** No two segments of importance below 4 within [min_interval] of each
    other. *)
Definition low_importance_spaced (min_interval : Q) (segs : list Enhanced.Segment) : Prop :=
  ForallOrdPairs
    (fun a b =>
       (Enhanced.importance a < 4)%Z -> (Enhanced.importance b < 4)%Z ->
       (min_interval <= Qabs (Enhanced.timestamp b - Enhanced.timestamp a))%Q)
    segs.

(** A frame that shows an unreadable timer and a greyed-out ability. *)
Definition frame_of_ability : Analyzer.Frame :=
  {| Analyzer.kill_feed_region := Some [];
     Analyzer.timer_region := Some [("VALORANT"%string, 0.9)];
     Analyzer.center_region := Some [];
     Analyzer.scoreboard_region := Some [("VALORANT"%string, 0.9)];
     Analyzer.gray_mask_sum := 5000 |}.

(** The segment made for an event carries its timestamp, type and
    importance. *)
Definition segment_of_event (s : Enhanced.Segment) (e : Analyzer.GameplayEvent) : Prop :=
  Enhanced.timestamp s = Analyzer.timestamp e
  /\ Enhanced.event_type s = Analyzer.event_type e
  /\ Enhanced.importance s = Analyzer.importance e.

(** * Properties *)

Unset Implicit Arguments.

(** ** Rational comparisons *)

Lemma Qltb_lt (x y : Q) : Qltb x y = true <-> (x < y)%Q.
Proof.
  unfold Qltb. rewrite negb_true_iff. split.
  - intros H. apply Qnot_le_lt. intros Hle.
    apply Qle_bool_iff in Hle. congruence.
  - intros H. destruct (Qle_bool y x) eqn:E; [|reflexivity].
    apply Qle_bool_iff in E. lra.
Qed.

Lemma Qltb_ge (x y : Q) : Qltb x y = false <-> (y <= x)%Q.
Proof.
  unfold Qltb. rewrite negb_false_iff. apply Qle_bool_iff.
Qed.

(** ** The string primitives on sample inputs *)

Example lower_requesting :
  Text.strip (Text.lower "  REQUESTING Vandal ") = "requesting vandal"%string.
Proof. reflexivity. Qed.

Example search_score :
  Text.search_pair "-" "score 12-10 x" = Some ("12", "10")%string.
Proof. reflexivity. Qed.

Example search_timer_none : Text.search_pair ":" "BUY PHASE" = None.
Proof. reflexivity. Qed.

Example int_12 : Text.int "12" = 12%Z.
Proof. reflexivity. Qed.

Example str_23 : Text.str 23 = "23"%string.
Proof. reflexivity. Qed.

(** ** Substrings *)

Lemma starts_with_prefix (p s : string) :
  Text.starts_with p s = true <-> exists r, s = (p ++ r)%string.
Proof.
  revert s. induction p as [|a p IH]; intros s; simpl.
  - split; [intros _; exists s; reflexivity|reflexivity].
  - destruct s as [|b s].
    + split; [discriminate|]. intros [r Hr]. discriminate.
    + rewrite andb_true_iff, IH. split.
      * intros [Hab [r Hr]]. apply Ascii.eqb_eq in Hab. subst.
        exists r. reflexivity.
      * intros [r Hr]. injection Hr as -> ->. split.
        -- apply Ascii.eqb_refl.
        -- exists r. reflexivity.
Qed.

(** [Text.contains] is the substring test of Python's [in]. *)
Lemma contains_substring (needle hay : string) :
  Text.contains needle hay = true <->
  exists before after, hay = (before ++ needle ++ after)%string.
Proof.
  induction hay as [|c hay IH].
  - simpl. rewrite orb_false_r, starts_with_prefix. split.
    + intros [r Hr]. exists ""%string, r. exact Hr.
    + intros (before & after & H). destruct before as [|b before]; simpl in H.
      * exists after. exact H.
      * discriminate.
  - cbn [Text.contains]. rewrite orb_true_iff, starts_with_prefix, IH. split.
    + intros [[r Hr]|(before & after & H)].
      * exists ""%string, r. exact Hr.
      * exists (String c before), after. simpl. rewrite H. reflexivity.
    + intros (before & after & H). destruct before as [|b before]; simpl in H.
      * left. exists after. exact H.
      * right. injection H as _ H. exists before, after. exact H.
Qed.

Example search_leftmost : Text.search_pair "-" "1-2-3" = Some ("1", "2")%string.
Proof. reflexivity. Qed.

Example search_needs_digits_after : Text.search_pair ":" "12: 30" = None.
Proof. reflexivity. Qed.

(** ** The scoreboard *)

Lemma read_score_consistent (s : Analyzer.ScoreInfo) (r : Analyzer.OcrResult) :
  score_consistent s -> score_consistent (Analyzer.read_score s r).
Proof.
  intros Hs. destruct r as [text confidence]. unfold Analyzer.read_score.
  destruct (Qltb 0.7 confidence); [|exact Hs].
  destruct (Text.search_pair "-" text) as [[g1 g2]|]; [|exact Hs].
  reflexivity.
Qed.

Lemma fold_read_score_consistent (results : list Analyzer.OcrResult) :
  forall s, score_consistent s ->
            score_consistent (fold_left Analyzer.read_score results s).
Proof.
  induction results as [|r rest IH]; intros s Hs; simpl.
  - exact Hs.
  - apply IH, read_score_consistent, Hs.
Qed.

Lemma analyze_scoreboard_consistent (f : Analyzer.Frame) :
  score_consistent (Analyzer.analyze_scoreboard f).
Proof.
  unfold Analyzer.analyze_scoreboard.
  destruct (Analyzer.scoreboard_region f) as [results|].
  - apply fold_read_score_consistent. reflexivity.
  - reflexivity.
Qed.

(** C6.  A scoreboard reading whose only entry is the text "12-10", with a
    confidence above the threshold 0.7, yields team1 = 12, team2 = 10 and
    round = 23; and on every frame the round that [analyze_scoreboard]
    returns is team1 score + team2 score + 1. *)
Theorem scoreboard_12_10_round_23 :
  forall (f : Analyzer.Frame) (confidence : Q),
    Analyzer.scoreboard_region f = Some [("12-10"%string, confidence)] ->
    (0.7 < confidence)%Q ->
    Analyzer.analyze_scoreboard f
    = {| Analyzer.round := 23; Analyzer.team1_score := 12; Analyzer.team2_score := 10 |}
    /\ forall f' : Analyzer.Frame,
         Analyzer.round (Analyzer.analyze_scoreboard f')
         = (Analyzer.team1_score (Analyzer.analyze_scoreboard f')
            + Analyzer.team2_score (Analyzer.analyze_scoreboard f') + 1)%Z.
Proof.
  intros f confidence Hf Hc. split.
  - unfold Analyzer.analyze_scoreboard. rewrite Hf. simpl.
    apply Qltb_lt in Hc. rewrite Hc. reflexivity.
  - intros f'. apply analyze_scoreboard_consistent.
Qed.

Lemma scoreboard_12_10_round_23_witness :
  Analyzer.analyze_scoreboard (frame_of_scoreboard [("12-10"%string, 0.9)])
  = {| Analyzer.round := 23; Analyzer.team1_score := 12; Analyzer.team2_score := 10 |}.
Proof.
  apply (scoreboard_12_10_round_23 (frame_of_scoreboard [("12-10"%string, 0.9)]) 0.9).
  - reflexivity.
  - reflexivity.
Defined.

(** ** The round phase *)

Lemma next_round_phase_current (last current : string) :
  Enhanced.next_round_phase last current = current.
Proof.
  unfold Enhanced.next_round_phase.
  destruct (String.eqb current last) eqn:E; simpl.
  - apply String.eqb_eq in E. congruence.
  - reflexivity.
Qed.

Lemma scan_timer_unrecognized (results : list Analyzer.OcrResult) :
  forallb (fun '(text, _) =>
             negb (Text.any_in ["BUY"; "PREP"]%string (Text.upper text))
             && match Text.search_pair ":" text with
                | Some _ => false
                | None => true
                end)
          results = true ->
  Analyzer.scan_timer results = None.
Proof.
  induction results as [|[text confidence] rest IH]; simpl; intros H.
  - reflexivity.
  - apply andb_true_iff in H. destruct H as [Hhead Hrest].
    apply andb_true_iff in Hhead. destruct Hhead as [_ Hsearch].
    destruct (Text.search_pair ":" text); [discriminate|].
    destruct (Qltb 0.6 confidence); apply IH, Hrest.
Qed.

Lemma detect_round_phase_default (f : Analyzer.Frame) :
  timer_unrecognized f = true ->
  Analyzer.detect_round_phase f = "ACTION_PHASE"%string.
Proof.
  unfold timer_unrecognized, Analyzer.detect_round_phase.
  destruct (Analyzer.timer_region f) as [results|]; intros H.
  - rewrite (scan_timer_unrecognized _ H). reflexivity.
  - reflexivity.
Qed.

Lemma analyze_frame_phase (st : Enhanced.Loop) (ts : Q) (f : Analyzer.Frame) :
  Enhanced.last_round_phase (Enhanced.analyze_frame st (ts, f))
  = Analyzer.detect_round_phase f.
Proof. simpl. apply next_round_phase_current. Qed.

(** C2, as the code has it.  On a frame whose timer text shows neither a
    BUY/PREP keyword nor a numeric countdown, [detect_round_phase] answers
    with its default ACTION_PHASE, and the tracked phase after the frame
    is ACTION_PHASE, whatever it was before. *)
Theorem unrecognized_timer_defaults_to_action :
  forall (st : Enhanced.Loop) (ts : Q) (f : Analyzer.Frame),
    timer_unrecognized f = true ->
    Analyzer.detect_round_phase f = "ACTION_PHASE"%string
    /\ Enhanced.last_round_phase (Enhanced.analyze_frame st (ts, f))
       = "ACTION_PHASE"%string.
Proof.
  intros st ts f H. split.
  - apply detect_round_phase_default, H.
  - rewrite analyze_frame_phase. apply detect_round_phase_default, H.
Qed.

Lemma unrecognized_timer_defaults_to_action_witness :
  Enhanced.last_round_phase
    (Enhanced.analyze_frame
       (Enhanced.analyze_frames (Enhanced.new_commentator 0%nat)
          [(0, frame_of_timer [("BUY 1:30"%string, 0.9)])])
       (0.5, frame_of_timer [("VALORANT"%string, 0.9)]))
  = "ACTION_PHASE"%string.
Proof.
  apply (unrecognized_timer_defaults_to_action
           (Enhanced.analyze_frames (Enhanced.new_commentator 0%nat)
              [(0, frame_of_timer [("BUY 1:30"%string, 0.9)])])
           0.5 (frame_of_timer [("VALORANT"%string, 0.9)])).
  reflexivity.
Defined.

(** C2, counterexample.  The phase is PREP_PHASE after a frame whose timer
    reads "BUY 1:30"; the next frame's timer reads "VALORANT", with no
    keyword and no countdown, and the phase does not stay PREP_PHASE: it
    becomes ACTION_PHASE. *)
Lemma unrecognized_timer_changes_phase :
  let st := Enhanced.analyze_frames (Enhanced.new_commentator 0%nat)
              [(0, frame_of_timer [("BUY 1:30"%string, 0.9)])] in
  let f := frame_of_timer [("VALORANT"%string, 0.9)] in
  timer_unrecognized f = true
  /\ Enhanced.last_round_phase st = "PREP_PHASE"%string
  /\ Enhanced.last_round_phase (Enhanced.analyze_frame st (0.5, f))
     <> Enhanced.last_round_phase st.
Proof.
  cbv zeta. split; [reflexivity|]. split; [reflexivity|].
  vm_compute. discriminate.
Qed.

(** ** The stored round *)

Lemma generate_event_commentary_events
    (c : Enhanced.Commentator) (e : Analyzer.GameplayEvent) :
  Enhanced.events_detected (Enhanced._generate_event_commentary c e)
  = Enhanced.events_detected c.
Proof.
  unfold Enhanced._generate_event_commentary.
  destruct (choice _ _ _) as [chosen r]. reflexivity.
Qed.

Lemma comment_on_events_events (events : list Analyzer.GameplayEvent) :
  forall c : Enhanced.Commentator,
    Enhanced.events_detected (Enhanced.comment_on_events c events)
    = Enhanced.events_detected c.
Proof.
  unfold Enhanced.comment_on_events.
  induction events as [|e rest IH]; intros c; simpl.
  - reflexivity.
  - rewrite IH. destruct (3 <=? Analyzer.importance e)%Z.
    + apply generate_event_commentary_events.
    + reflexivity.
Qed.

Lemma analyze_frame_events (st : Enhanced.Loop) (ts : Q) (f : Analyzer.Frame) :
  Enhanced.events_detected (Enhanced.self (Enhanced.analyze_frame st (ts, f)))
  = (Enhanced.events_detected (Enhanced.self st)
     ++ Enhanced.events_of_frame st ts f)%list.
Proof. simpl. rewrite comment_on_events_events. reflexivity. Qed.

(** C3, as the code has it.  After a frame, the stored round is the round
    read from that frame's scoreboard.  When the round read differs from
    the stored round, in either direction, the reading replaces the
    stored score and one economic-context event is recorded; when it is
    equal, the stored score stays and no such event is produced. *)
Theorem stored_round_follows_reading :
  forall (st : Enhanced.Loop) (ts : Q) (f : Analyzer.Frame),
    let info := Analyzer.analyze_scoreboard f in
    let st' := Enhanced.analyze_frame st (ts, f) in
    Analyzer.round (Enhanced.last_score_info st') = Analyzer.round info
    /\ (Analyzer.round info <> Analyzer.round (Enhanced.last_score_info st) ->
        Enhanced.last_score_info st' = info
        /\ exists e,
             Enhanced.score_events (Enhanced.last_score_info st) info ts = [e]
             /\ Analyzer.event_type e = "economic_context"%string
             /\ In e (Enhanced.events_detected (Enhanced.self st')))
    /\ (Analyzer.round info = Analyzer.round (Enhanced.last_score_info st) ->
        Enhanced.last_score_info st' = Enhanced.last_score_info st
        /\ Enhanced.score_events (Enhanced.last_score_info st) info ts = []).
Proof.
  intros st ts f info st'.
  assert (Hnext : Enhanced.last_score_info st'
                  = Enhanced.next_score_info (Enhanced.last_score_info st) info)
    by reflexivity.
  assert (Hrec : forall e,
             In e (Enhanced.score_events (Enhanced.last_score_info st) info ts) ->
             In e (Enhanced.events_detected (Enhanced.self st'))).
  { intros e He. unfold st'. rewrite analyze_frame_events.
    apply in_or_app. right. unfold Enhanced.events_of_frame.
    apply in_or_app. right. apply in_or_app. left. exact He. }
  rewrite Hnext. clear Hnext. revert Hrec.
  generalize (Enhanced.events_detected (Enhanced.self st')). intros recorded Hrec.
  revert Hrec. unfold Enhanced.next_score_info, Enhanced.score_events.
  destruct (Analyzer.round info =? Analyzer.round (Enhanced.last_score_info st))%Z eqn:E;
    cbn [negb]; intros Hrec.
  - apply Z.eqb_eq in E. split; [symmetry; exact E|]. split.
    + intros Hne. contradiction.
    + intros _. split; reflexivity.
  - apply Z.eqb_neq in E. split; [reflexivity|]. split.
    + intros _. split; [reflexivity|].
      eexists. split; [reflexivity|]. split; [reflexivity|].
      apply Hrec. left. reflexivity.
    + intros Heq. contradiction.
Qed.

Lemma stored_round_follows_reading_witness :
  Enhanced.last_score_info
    (Enhanced.analyze_frame (Enhanced.loop_start (Enhanced.new_commentator 0%nat))
       (300, frame_of_scoreboard [("12-10"%string, 0.9)]))
  = Analyzer.analyze_scoreboard (frame_of_scoreboard [("12-10"%string, 0.9)]).
Proof.
  apply (stored_round_follows_reading
           (Enhanced.loop_start (Enhanced.new_commentator 0%nat))
           300 (frame_of_scoreboard [("12-10"%string, 0.9)])).
  vm_compute. discriminate.
Defined.

(** C3, counterexample.  After a frame whose scoreboard reads "12-10" the
    stored round is 23; the next frame's scoreboard shows no text, its
    reading is the initial round 1, and the stored round drops to 1,
    with an economic-context event recorded for the drop. *)
Lemma stored_round_decreases :
  let st := Enhanced.analyze_frames (Enhanced.new_commentator 0%nat)
              [(300, frame_of_scoreboard [("12-10"%string, 0.9)])] in
  let st' := Enhanced.analyze_frame st (300.5, frame_of_scoreboard []) in
  Analyzer.round (Enhanced.last_score_info st) = 23%Z
  /\ Analyzer.round (Enhanced.last_score_info st') = 1%Z
  /\ (Analyzer.round (Enhanced.last_score_info st')
      < Analyzer.round (Enhanced.last_score_info st))%Z
  /\ map Analyzer.event_type (Enhanced.events_detected (Enhanced.self st'))
     = ["economic_context"; "economic_context"]%string.
Proof.
  cbv zeta. split; [reflexivity|]. split; [reflexivity|].
  split; reflexivity.
Qed.

(** ** Gap filling *)

Lemma not_nearby_clear (segs : list Enhanced.Segment) (current_time : Z) (chosen : string) :
  Enhanced.has_nearby_commentary segs current_time = false ->
  clear_of segs (Enhanced.general_segment current_time chosen).
Proof.
  unfold Enhanced.has_nearby_commentary, clear_of. intros H s Hs.
  unfold Enhanced.general_segment. cbn [Enhanced.timestamp].
  apply Qltb_ge.
  destruct (Qltb (Qabs (Enhanced.timestamp s - inject_Z current_time)) 5) eqn:E;
    [|reflexivity].
  assert (Hex : existsb
                  (fun seg => Qltb (Qabs (Enhanced.timestamp seg - inject_Z current_time)) 5)
                  segs = true).
  { apply existsb_exists. exists s. split; assumption. }
  congruence.
Qed.

Lemma clear_of_app_l (segs more : list Enhanced.Segment) (f : Enhanced.Segment) :
  clear_of (segs ++ more) f -> clear_of segs f.
Proof.
  unfold clear_of. intros H s Hs. apply H, in_or_app. left. exact Hs.
Qed.

Lemma lt_duration_lt_ceiling (current_time : Z) (duration : Q) :
  (inject_Z current_time < duration)%Q -> (current_time < Qceiling duration)%Z.
Proof.
  intros H. rewrite Zlt_Qlt.
  apply Qlt_le_trans with duration; [exact H|apply Qle_ceiling].
Qed.

(** The loop ends within the iterations it is given, keeps the segments
    it found, and appends fillers only: each at a candidate time
    [current_time + 12 j] below the duration, and none within 5 seconds of
    a segment that was there before. *)
Lemma general_loop_spec (duration : Q) :
  forall (fuel : nat) (current_time : Z) (c : Enhanced.Commentator),
    (Z.to_nat (Qceiling duration - current_time) < fuel)%nat ->
    exists result fillers,
      Enhanced.general_loop fuel current_time duration c = Some result
      /\ Enhanced.events_detected result = Enhanced.events_detected c
      /\ Enhanced.commentary_segments result
         = (Enhanced.commentary_segments c ++ fillers)%list
      /\ Forall (fun f =>
                   is_filler f
                   /\ (exists j : Z, (0 <= j)%Z
                                     /\ Enhanced.timestamp f
                                        = inject_Z (current_time + 12 * j))
                   /\ (Enhanced.timestamp f < duration)%Q
                   /\ clear_of (Enhanced.commentary_segments c) f)
                fillers.
Proof.
  induction fuel as [|fuel IH]; intros current_time c Hfuel; [lia|].
  cbn [Enhanced.general_loop].
  destruct (Qltb (inject_Z current_time) duration) eqn:Hlt.
  - apply Qltb_lt in Hlt. pose proof (lt_duration_lt_ceiling _ _ Hlt) as Hceil.
    unfold Enhanced.commentary_interval.
    assert (Hfuel' : (Z.to_nat (Qceiling duration - (current_time + 12)) < fuel)%nat)
      by lia.
    destruct (IH (current_time + 12)%Z (Enhanced.add_general_at c current_time) Hfuel')
      as (result & fillers & Hrun & Hev & Hsegs & Hall).
    unfold Enhanced.add_general_at in *.
    destruct (Enhanced.has_nearby_commentary (Enhanced.commentary_segments c) current_time)
      eqn:Hnear.
    + exists result, fillers.
      split; [exact Hrun|]. split; [exact Hev|]. split; [exact Hsegs|].
      eapply Forall_impl; [|exact Hall]. cbv beta.
      intros f (Hf & (j & Hj & Hts) & Hd & Hclear).
      split; [exact Hf|]. split; [|split; assumption].
      exists (j + 1)%Z. split; [lia|]. rewrite Hts. f_equal. lia.
    + destruct (choice (Enhanced.rng c) Enhanced.general_comments ""%string)
        as [chosen r] eqn:Hchoice.
      cbn [Enhanced.events_detected Enhanced.commentary_segments] in Hev, Hsegs, Hall.
      exists result, (Enhanced.general_segment current_time chosen :: fillers).
      split; [exact Hrun|]. split; [exact Hev|]. split.
      * rewrite Hsegs, <- app_assoc. reflexivity.
      * constructor.
        -- split; [unfold is_filler; repeat split|]. split.
           ++ exists 0%Z. split; [lia|].
              unfold Enhanced.general_segment. cbn [Enhanced.timestamp].
              f_equal. lia.
           ++ split; [exact Hlt|]. apply not_nearby_clear, Hnear.
        -- eapply Forall_impl; [|exact Hall]. cbv beta.
           intros f (Hf & (j & Hj & Hts) & Hd & Hclear).
           split; [exact Hf|]. split.
           ++ exists (j + 1)%Z. split; [lia|]. rewrite Hts. f_equal. lia.
           ++ split; [exact Hd|]. eapply clear_of_app_l, Hclear.
  - exists c, []. split; [reflexivity|]. split; [reflexivity|]. split.
    + rewrite app_nil_r. reflexivity.
    + constructor.
Qed.

Lemma enough_fuel_suffices (duration : Q) :
  (Z.to_nat (Qceiling duration - 0) < Enhanced.enough_fuel duration)%nat.
Proof. unfold Enhanced.enough_fuel. rewrite Z.sub_0_r. lia. Qed.

(** C4, as the code has it.  On any video the gap-filling pass ends, keeps
    the segments of the real events and appends fillers at candidate
    times 0, 12, 24, ... below the duration, each at least 5 seconds from
    every real segment.  On a 24-second span with no real segment it
    produces exactly two fillers, at t = 0 and t = 12. *)
Theorem gap_filling_fillers :
  (forall (duration : Q) (c : Enhanced.Commentator),
      exists result fillers,
        Enhanced._add_general_commentary (Enhanced.enough_fuel duration) duration c
        = Some result
        /\ Enhanced.commentary_segments result
           = (Enhanced.commentary_segments c ++ fillers)%list
        /\ Forall (fun f =>
                     is_filler f
                     /\ (exists j : Z, (0 <= j)%Z
                                       /\ Enhanced.timestamp f = inject_Z (0 + 12 * j))
                     /\ (Enhanced.timestamp f < duration)%Q
                     /\ clear_of (Enhanced.commentary_segments c) f)
                  fillers)
  /\ (forall seed : Rng,
         exists result f0 f12,
           Enhanced._add_general_commentary (Enhanced.enough_fuel 24) 24
             (Enhanced.new_commentator seed) = Some result
           /\ Enhanced.commentary_segments result = [f0; f12]
           /\ is_filler f0 /\ is_filler f12
           /\ Enhanced.timestamp f0 = 0
           /\ Enhanced.timestamp f12 = 12).
Proof.
  split.
  - intros duration c.
    destruct (general_loop_spec duration (Enhanced.enough_fuel duration) 0 c
                (enough_fuel_suffices duration))
      as (result & fillers & Hrun & _ & Hsegs & Hall).
    exists result, fillers. repeat split; assumption.
  - intros seed.
    exists {| Enhanced.events_detected := [];
              Enhanced.commentary_segments :=
                [ Enhanced.general_segment 0
                    (fst (choice seed Enhanced.general_comments ""%string));
                  Enhanced.general_segment 12
                    (fst (choice (next_rng seed) Enhanced.general_comments ""%string)) ];
              Enhanced.rng := next_rng (next_rng seed) |}.
    eexists. eexists. split; [reflexivity|].
    split; [reflexivity|]. repeat split.
Qed.

(** C4, counterexample.  On a 24-second span with no real segment the two
    fillers are at t = 0 and t = 12: no filler is within 5 seconds of
    t = 24, and the first one is 12 seconds away from t = 12. *)
Lemma no_filler_near_24 :
  exists result,
    Enhanced._add_general_commentary (Enhanced.enough_fuel 24) 24
      (Enhanced.new_commentator 0%nat) = Some result
    /\ map Enhanced.timestamp (Enhanced.commentary_segments result) = [0; 12]
    /\ ~ (exists s, In s (Enhanced.commentary_segments result)
                    /\ (Qabs (Enhanced.timestamp s - 24) < 5)%Q).
Proof.
  eexists. split; [reflexivity|]. split; [reflexivity|].
  intros (s & Hin & Hnear). simpl in Hin.
  destruct Hin as [<-|[<-|[]]]; vm_compute in Hnear; discriminate.
Qed.

(** ** Sorting by timestamp *)

Section SortFacts.
Variable A : Type.
Variable key : A -> Q.

Lemma insert_by_key_hdrel (a x : A) (l : list A) :
  (key a <= key x)%Q ->
  HdRel (fun u v => (key u <= key v)%Q) a l ->
  HdRel (fun u v => (key u <= key v)%Q) a (insert_by_key key x l).
Proof.
  intros Hax Hal. destruct l as [|y l']; simpl.
  - constructor. exact Hax.
  - destruct (Qle_bool (key x) (key y)).
    + constructor. exact Hax.
    + constructor. inversion Hal; assumption.
Qed.

Lemma insert_by_key_sorted (x : A) (l : list A) :
  sorted_by_key key l -> sorted_by_key key (insert_by_key key x l).
Proof.
  unfold sorted_by_key. induction l as [|y l' IH]; intros Hl; simpl.
  - repeat constructor.
  - destruct (Qle_bool (key x) (key y)) eqn:E.
    + constructor; [exact Hl|]. constructor. apply Qle_bool_iff, E.
    + inversion Hl as [|? ? Hl' Hhd]; subst. constructor.
      * apply IH, Hl'.
      * apply insert_by_key_hdrel; [|exact Hhd].
        assert (Hlt : (key y < key x)%Q).
        { apply Qnot_le_lt. intros Hle. apply Qle_bool_iff in Hle. congruence. }
        apply Qlt_le_weak, Hlt.
Qed.

Lemma sort_by_key_sorted (l : list A) : sorted_by_key key (sort_by_key key l).
Proof.
  induction l as [|x l IH]; simpl.
  - constructor.
  - apply insert_by_key_sorted, IH.
Qed.

Lemma insert_by_key_perm (x : A) (l : list A) :
  Permutation (x :: l) (insert_by_key key x l).
Proof.
  induction l as [|y l' IH]; simpl.
  - apply Permutation_refl.
  - destruct (Qle_bool (key x) (key y)).
    + apply Permutation_refl.
    + eapply Permutation_trans; [apply perm_swap|].
      apply perm_skip, IH.
Qed.

Lemma sort_by_key_perm (l : list A) : Permutation l (sort_by_key key l).
Proof.
  induction l as [|x l IH]; simpl.
  - apply Permutation_refl.
  - eapply Permutation_trans; [apply perm_skip, IH|apply insert_by_key_perm].
Qed.

(** Being sorted is a property of the list of keys. *)
Lemma sorted_by_key_map (l : list A) :
  sorted_by_key key l <-> Sorted Qle (map key l).
Proof.
  unfold sorted_by_key. induction l as [|x l IH]; simpl.
  - split; constructor.
  - split; intros H; inversion H as [|? ? Hl Hhd]; subst; constructor.
    + apply IH, Hl.
    + destruct l; simpl; constructor. inversion Hhd; assumption.
    + apply IH, Hl.
    + destruct l; simpl in *; constructor. inversion Hhd; assumption.
Qed.

(** Appending, to a sorted list with keys up to [t], elements whose key
    is [t]. *)
Lemma sorted_app_const (t : Q) (l news : list A) :
  sorted_by_key key l ->
  Forall (fun s => (key s <= t)%Q) l ->
  Forall (fun s => key s = t) news ->
  sorted_by_key key (l ++ news).
Proof.
  unfold sorted_by_key. intros Hl Hle Hnews.
  induction l as [|x l IH]; simpl.
  - induction Hnews as [|y news Hy Hnews IHn]; constructor.
    + exact IHn.
    + destruct Hnews as [|z news' Hz _]; constructor.
      rewrite Hy, Hz. apply Qle_refl.
  - inversion Hl as [|? ? Hl' Hhd]; subst.
    inversion Hle as [|? ? Hx Hle']; subst.
    constructor.
    + apply IH; assumption.
    + destruct l as [|y l']; simpl.
      * destruct Hnews as [|z news' Hz _]; constructor.
        rewrite Hz. exact Hx.
      * constructor. inversion Hhd; assumption.
Qed.
End SortFacts.

Lemma enhanced_voice_loop_timestamps (synth : nat -> string -> bool) (segs : list Enhanced.Segment) :
  forall i, map Enhanced.timestamp (Enhanced.voice_loop synth i segs)
            = map Enhanced.timestamp segs.
Proof.
  induction segs as [|s rest IH]; intros i; simpl.
  - reflexivity.
  - rewrite IH. destruct (synth i (Enhanced.text s)); reflexivity.
Qed.

Lemma enhanced_saved_sorted
    (voice_enabled : bool) (synth : nat -> string -> bool)
    (c c' : Enhanced.Commentator) (saved : Enhanced.Results) :
  Enhanced.generate_voice_commentary voice_enabled synth c = (c', Some saved) ->
  sorted_by_key Enhanced.timestamp (Enhanced.saved_segments saved).
Proof.
  unfold Enhanced.generate_voice_commentary.
  destruct voice_enabled; simpl; intros H; [|discriminate].
  injection H as _ <-. simpl.
  apply (proj2 (sorted_by_key_map _ Enhanced.timestamp _)).
  rewrite enhanced_voice_loop_timestamps.
  apply (proj1 (sorted_by_key_map _ Enhanced.timestamp _)), sort_by_key_sorted.
Qed.

(** ** The order of the segments of the advanced generator *)

Lemma stamp_le (fps : Q) (a b : Z) :
  (0 < fps)%Q -> (a <= b)%Z -> (inject_Z a / fps <= inject_Z b / fps)%Q.
Proof.
  intros Hfps Hab. unfold Qdiv. apply Qmult_le_compat_r.
  - rewrite <- Zle_Qle. exact Hab.
  - apply Qinv_le_0_compat, Qlt_le_weak, Hfps.
Qed.

Lemma extract_loop_lower (fps : Q) (frame_interval : Z) (n : nat) :
  (0 < fps)%Q ->
  forall (frame_count extracted_count lower : Z),
    (lower <= frame_count)%Z ->
    Forall (fun f => (inject_Z lower / fps <= Advanced.frame_timestamp f)%Q)
           (Advanced.extract_loop fps frame_interval n frame_count extracted_count).
Proof.
  intros Hfps. induction n as [|n IH]; intros fc ec lower Hle; simpl.
  - constructor.
  - destruct (fc mod frame_interval =? 0)%Z.
    + constructor.
      * simpl. apply stamp_le; assumption.
      * apply IH. lia.
    + apply IH. lia.
Qed.

Lemma extract_loop_ordered (fps : Q) (frame_interval : Z) (n : nat) :
  (0 < fps)%Q ->
  forall (frame_count extracted_count : Z),
    frames_ordered (Advanced.extract_loop fps frame_interval n frame_count extracted_count).
Proof.
  intros Hfps. unfold frames_ordered.
  induction n as [|n IH]; intros fc ec; simpl.
  - constructor.
  - destruct (fc mod frame_interval =? 0)%Z.
    + constructor.
      * apply IH.
      * simpl. apply extract_loop_lower; [exact Hfps|lia].
    + apply IH.
Qed.

Lemma mock_loop_forall (P : Q -> Prop) (frames : list Advanced.FrameInfo) :
  Forall (fun f => P (Advanced.frame_timestamp f)) frames ->
  forall i, Forall (fun d => P (Advanced.det_timestamp d)) (Advanced.mock_loop i frames).
Proof.
  induction 1 as [|f frames Hf _ IH]; intros i; cbn [Advanced.mock_loop].
  - constructor.
  - destruct (i mod 3 =? 0)%nat.
    + constructor; [exact Hf|apply IH].
    + apply IH.
Qed.

Lemma mock_loop_ordered (frames : list Advanced.FrameInfo) :
  frames_ordered frames ->
  forall i, detections_ordered (Advanced.mock_loop i frames).
Proof.
  unfold frames_ordered, detections_ordered.
  induction 1 as [|f frames _ IH Hf]; intros i; cbn [Advanced.mock_loop].
  - constructor.
  - destruct (i mod 3 =? 0)%nat.
    + constructor; [apply IH|].
      cbn [Advanced.det_timestamp]. apply (mock_loop_forall (fun t => (Advanced.frame_timestamp f <= t)%Q)), Hf.
    + apply IH.
Qed.

Lemma yolo_loop_forall (P : Q -> Prop)
    (processor : Advanced.FrameInfo -> option (list Advanced.Prediction))
    (frames : list Advanced.FrameInfo) :
  Forall (fun f => P (Advanced.frame_timestamp f)) frames ->
  Forall (fun d => P (Advanced.det_timestamp d)) (Advanced.yolo_loop processor frames).
Proof.
  induction 1 as [|f frames Hf _ IH]; simpl.
  - constructor.
  - destruct (processor f) as [[|p ps]|]; try exact IH.
    constructor; [exact Hf|exact IH].
Qed.

Lemma yolo_loop_ordered
    (processor : Advanced.FrameInfo -> option (list Advanced.Prediction))
    (frames : list Advanced.FrameInfo) :
  frames_ordered frames ->
  detections_ordered (Advanced.yolo_loop processor frames).
Proof.
  unfold frames_ordered, detections_ordered.
  induction 1 as [|f frames _ IH Hf]; simpl.
  - constructor.
  - destruct (processor f) as [[|p ps]|]; try exact IH.
    constructor; [exact IH|].
    simpl. apply (yolo_loop_forall (fun t => (Advanced.frame_timestamp f <= t)%Q)), Hf.
Qed.

Lemma detection_ordered
    (yolo : Advanced.Yolo) (frames : list Advanced.FrameInfo)
    (dir dir' : Advanced.OutputDir) :
  frames_ordered frames ->
  earlier_ordered dir ->
  Advanced.run_buy_phase_detection yolo frames dir = Some dir' ->
  detections_ordered (Advanced.load_detections dir').
Proof.
  intros Hframes Hdir Hrun.
  assert (Hmock : detections_ordered
                    (Advanced.load_detections
                       (Advanced._generate_mock_detections frames dir))).
  { unfold Advanced.load_detections, Advanced._generate_mock_detections.
    cbn [Advanced.detections_file Advanced.mock_detections_file].
    destruct (Advanced.detections_file dir) as [dets|] eqn:E.
    - apply Hdir, E.
    - apply mock_loop_ordered, Hframes. }
  destruct yolo as [|[|]|p]; cbn [Advanced.run_buy_phase_detection] in Hrun.
  - injection Hrun as <-. exact Hmock.
  - injection Hrun as <-. exact Hmock.
  - discriminate.
  - injection Hrun as <-. unfold Advanced.load_detections.
    cbn [Advanced.detections_file]. apply yolo_loop_ordered, Hframes.
Qed.

Lemma upto_snoc (t : Q) (segs : list Advanced.Segment) (s : Advanced.Segment) :
  upto t segs -> Advanced.timestamp s = t -> upto t (segs ++ [s]).
Proof.
  intros [Hsorted Hle] Hs. split.
  - apply sorted_app_const with t; [assumption|assumption|].
    constructor; [exact Hs|constructor].
  - apply Forall_app. split; [exact Hle|].
    constructor; [rewrite Hs; apply Qle_refl|constructor].
Qed.

Lemma upto_weaken (t t' : Q) (segs : list Advanced.Segment) :
  (t <= t')%Q -> upto t segs -> upto t' segs.
Proof.
  intros Htt [Hsorted Hle]. split; [exact Hsorted|].
  eapply Forall_impl; [|exact Hle]. cbv beta.
  intros s Hs. apply Qle_trans with t; assumption.
Qed.

Lemma backup_one_upto (ts : Q) (det : Advanced.Prediction)
    (segs : list Advanced.Segment) (r : Rng) :
  upto ts segs -> upto ts (fst (Advanced.backup_one ts det (segs, r))).
Proof.
  intros H. unfold Advanced.backup_one.
  destruct (Text.contains "REQUESTING" _).
  - destruct (choice r Advanced.requesting_templates []) as [template r'].
    simpl. apply upto_snoc; [exact H|reflexivity].
  - destruct (Text.contains "OWNED" _).
    + destruct (choice r Advanced.owned_templates []) as [template r'].
      simpl. apply upto_snoc; [exact H|reflexivity].
    + exact H.
Qed.

Lemma backup_dets_upto (ts : Q) (dets : list Advanced.Prediction) :
  forall (acc : list Advanced.Segment * Rng),
    upto ts (fst acc) ->
    upto ts (fst (fold_left (fun a' det => Advanced.backup_one ts det a') dets acc)).
Proof.
  induction dets as [|det rest IH]; intros [segs r] H; simpl.
  - exact H.
  - apply IH. apply backup_one_upto, H.
Qed.

Lemma backup_commentary_sorted (dets : list Advanced.Detection) :
  detections_ordered dets ->
  forall (b : Q) (acc : list Advanced.Segment * Rng),
    Forall (fun d => (b <= Advanced.det_timestamp d)%Q) dets ->
    upto b (fst acc) ->
    sorted_by_key Advanced.timestamp
      (fst (Advanced._generate_backup_commentary dets acc)).
Proof.
  unfold detections_ordered, Advanced._generate_backup_commentary.
  induction 1 as [|d rest _ IH Hd]; intros b acc Hb Hacc; simpl.
  - apply Hacc.
  - inversion Hb as [|? ? Hbd _]; subst.
    apply IH with (b := Advanced.det_timestamp d).
    + exact Hd.
    + apply backup_dets_upto. apply upto_weaken with b; assumption.
Qed.

Lemma sorted_by_key_adjacent (front back : list Advanced.Segment)
    (a b : Advanced.Segment) :
  sorted_by_key Advanced.timestamp (front ++ a :: b :: back) ->
  (Advanced.timestamp a <= Advanced.timestamp b)%Q.
Proof.
  unfold sorted_by_key. induction front as [|x front IH]; cbn [app]; intros H.
  - inversion H as [|? ? _ Hhd]; subst. inversion Hhd; subst. assumption.
  - inversion H; subst. apply IH. assumption.
Qed.

Section ExistingSystemOrder.
Variable CommentatorState : Type.
Variable generate_commentary :
  CommentatorState -> BuyCommentary.Event -> BuyCommentary.Outcome * CommentatorState.

Lemma existing_one_upto (ts : Q) (det : Advanced.Prediction)
    (segs : list Advanced.Segment) (c : CommentatorState) :
  upto ts segs ->
  upto ts (segments_of_run (Advanced.existing_one generate_commentary ts det segs c)).
Proof.
  intros H. unfold Advanced.existing_one.
  destruct (Text.contains "REQUESTING" _).
  - destruct (generate_commentary c _) as [[e|[commentary|]] c'];
      cbn [segments_of_run]; try exact H.
    apply upto_snoc; [exact H|reflexivity].
  - destruct (Text.contains "OWNED" _).
    + destruct (generate_commentary c _) as [[e|[commentary|]] c'];
        cbn [segments_of_run]; try exact H.
      apply upto_snoc; [exact H|reflexivity].
    + exact H.
Qed.

Lemma existing_dets_upto (ts : Q) (dets : list Advanced.Prediction) :
  forall (segs : list Advanced.Segment) (c : CommentatorState),
    upto ts segs ->
    upto ts (segments_of_run (Advanced.existing_dets generate_commentary ts dets segs c)).
Proof.
  induction dets as [|det rest IH]; intros segs c H; cbn [Advanced.existing_dets].
  - exact H.
  - pose proof (existing_one_upto ts det segs c H) as Hone.
    destruct (Advanced.existing_one generate_commentary ts det segs c) as [segs1 c1|e segs1];
      cbn [segments_of_run] in Hone.
    + apply IH, Hone.
    + exact Hone.
Qed.

Lemma existing_commentary_sorted (dets : list Advanced.Detection) :
  detections_ordered dets ->
  forall (b : Q) (segs : list Advanced.Segment) (c : CommentatorState),
    Forall (fun d => (b <= Advanced.det_timestamp d)%Q) dets ->
    upto b segs ->
    sorted_by_key Advanced.timestamp
      (segments_of_run
         (Advanced._use_existing_commentary_system generate_commentary dets segs c)).
Proof.
  unfold detections_ordered.
  induction 1 as [|d rest _ IH Hd]; intros b segs c Hb Hsegs;
    cbn [Advanced._use_existing_commentary_system].
  - apply Hsegs.
  - inversion Hb as [|? ? Hbd _]; subst.
    pose proof (existing_dets_upto (Advanced.det_timestamp d) (Advanced.detections d)
                  segs c (upto_weaken b _ segs Hbd Hsegs)) as Hone.
    destruct (Advanced.existing_dets generate_commentary (Advanced.det_timestamp d)
                (Advanced.detections d) segs c) as [segs1 c1|e segs1];
      cbn [segments_of_run] in Hone.
    + apply (IH (Advanced.det_timestamp d) segs1 c1 Hd Hone).
    + apply Hone.
Qed.

Lemma ordered_head_bound (dets : list Advanced.Detection) :
  detections_ordered dets ->
  exists b : Q, Forall (fun d => (b <= Advanced.det_timestamp d)%Q) dets.
Proof.
  unfold detections_ordered. intros H. destruct H as [|d rest _ Hd].
  - exists 0. constructor.
  - exists (Advanced.det_timestamp d). constructor; [apply Qle_refl|exact Hd].
Qed.

Lemma upto_nil (b : Q) : upto b [].
Proof. split; constructor. Qed.

Lemma generate_ai_commentary_sorted
    (system : Advanced.System CommentatorState) (r : Rng)
    (dir : Advanced.OutputDir) (segs : list Advanced.Segment) :
  detections_ordered (Advanced.load_detections dir) ->
  backup_takes_over generate_commentary system (Advanced.load_detections dir) = false ->
  Advanced.generate_ai_commentary generate_commentary system r dir [] = Some segs ->
  sorted_by_key Advanced.timestamp segs.
Proof.
  intros Hord Hover Hrun. destruct (ordered_head_bound _ Hord) as [b Hb].
  unfold Advanced.generate_ai_commentary in Hrun.
  destruct (Advanced.load_detections dir) as [|d rest].
  - injection Hrun as <-. constructor.
  - destruct system as [[|]|c].
    + injection Hrun as <-.
      apply (backup_commentary_sorted (d :: rest) Hord b ([], r) Hb (upto_nil b)).
    + discriminate.
    + cbn [backup_takes_over] in Hover.
      pose proof (existing_commentary_sorted (d :: rest) Hord b [] c Hb (upto_nil b))
        as Hsorted.
      destruct (Advanced._use_existing_commentary_system generate_commentary
                  (d :: rest) [] c) as [segs1 c1|[|] segs1];
        cbn [segments_of_run] in Hsorted.
      * injection Hrun as <-. exact Hsorted.
      * destruct segs1 as [|s segs1]; [|discriminate].
        injection Hrun as <-.
        apply (backup_commentary_sorted (d :: rest) Hord b ([], r) Hb (upto_nil b)).
      * discriminate.
Qed.

Lemma advanced_saved_sorted
    (fps : Q) (n : nat) (yolo : Advanced.Yolo)
    (system : Advanced.System CommentatorState) (r : Rng)
    (dir : Advanced.OutputDir) (segs : list Advanced.Segment) :
  (0 < fps)%Q ->
  earlier_ordered dir ->
  backup_takes_over generate_commentary system (loaded_detections fps n yolo dir) = false ->
  Advanced.process_video generate_commentary fps n yolo system r dir = Some segs ->
  sorted_by_key Advanced.timestamp segs.
Proof.
  intros Hfps Hdir Hover Hrun.
  unfold Advanced.process_video in Hrun. unfold loaded_detections in Hover.
  destruct (Qeq_bool fps 0); [discriminate|].
  destruct (Advanced.extract_frames_for_analysis fps 1 n) as [frames|] eqn:E;
    [|discriminate].
  destruct (Advanced.run_buy_phase_detection yolo frames dir) as [dir'|] eqn:Edir;
    [|discriminate].
  apply (generate_ai_commentary_sorted system r dir' segs); [|exact Hover|exact Hrun].
  apply (detection_ordered yolo frames dir dir'); [|exact Hdir|exact Edir].
  unfold Advanced.extract_frames_for_analysis in E.
  destruct n as [|n'].
  - injection E as <-. constructor.
  - destruct (Advanced.int_of_float (fps * 1) =? 0)%Z; [discriminate|].
    injection E as <-.
    exact (extract_loop_ordered fps (Advanced.int_of_float (fps * 1)) (S n') Hfps
             0%Z 0%Z).
Qed.

(** An exception that escapes the existing system was raised by a call
    of [generate_commentary]. *)
Lemma existing_one_escaped (ts : Q) (det : Advanced.Prediction)
    (segs segs' : list Advanced.Segment) (c : CommentatorState)
    (e : BuyCommentary.Exception) :
  Advanced.existing_one generate_commentary ts det segs c = Advanced.Escaped e segs' ->
  exists c0 event, fst (generate_commentary c0 event) = BuyCommentary.Raised e.
Proof.
  unfold Advanced.existing_one.
  destruct (Text.contains "REQUESTING" _).
  - destruct (generate_commentary c _) as [[e0|[commentary|]] c'] eqn:E;
      intros H; try discriminate.
    injection H as <- _. eexists. eexists. rewrite E. reflexivity.
  - destruct (Text.contains "OWNED" _).
    + destruct (generate_commentary c _) as [[e0|[commentary|]] c'] eqn:E;
        intros H; try discriminate.
      injection H as <- _. eexists. eexists. rewrite E. reflexivity.
    + discriminate.
Qed.

Lemma existing_dets_escaped (ts : Q) (dets : list Advanced.Prediction)
    (e : BuyCommentary.Exception) (segs' : list Advanced.Segment) :
  forall (segs : list Advanced.Segment) (c : CommentatorState),
    Advanced.existing_dets generate_commentary ts dets segs c = Advanced.Escaped e segs' ->
    exists c0 event, fst (generate_commentary c0 event) = BuyCommentary.Raised e.
Proof.
  induction dets as [|det rest IH]; intros segs c; cbn [Advanced.existing_dets].
  - discriminate.
  - destruct (Advanced.existing_one generate_commentary ts det segs c)
      as [segs1 c1|e1 segs1] eqn:E.
    + apply IH.
    + intros H. injection H as -> _. apply (existing_one_escaped _ _ _ _ _ _ E).
Qed.

Lemma existing_system_escaped (dets : list Advanced.Detection)
    (e : BuyCommentary.Exception) (segs' : list Advanced.Segment) :
  forall (segs : list Advanced.Segment) (c : CommentatorState),
    Advanced._use_existing_commentary_system generate_commentary dets segs c
    = Advanced.Escaped e segs' ->
    exists c0 event, fst (generate_commentary c0 event) = BuyCommentary.Raised e.
Proof.
  induction dets as [|d rest IH]; intros segs c;
    cbn [Advanced._use_existing_commentary_system].
  - discriminate.
  - destruct (Advanced.existing_dets generate_commentary (Advanced.det_timestamp d)
                (Advanced.detections d) segs c) as [segs1 c1|e1 segs1] eqn:E.
    + apply IH.
    + intros H. injection H as -> _. apply (existing_dets_escaped _ _ _ _ _ _ E).
Qed.

Lemma no_import_error_no_takeover
    (system : Advanced.System CommentatorState) (dets : list Advanced.Detection) :
  (forall c event,
      fst (generate_commentary c event) <> BuyCommentary.Raised BuyCommentary.ImportError) ->
  backup_takes_over generate_commentary system dets = false.
Proof.
  intros Hnever. destruct system as [e|c]; cbn [backup_takes_over]; [reflexivity|].
  destruct (Advanced._use_existing_commentary_system generate_commentary dets [] c)
    as [segs1 c1|[|] [|s segs1]] eqn:E; try reflexivity.
  destruct (existing_system_escaped _ _ _ _ _ E) as (c0 & event & Hraised).
  exfalso. apply (Hnever c0 event Hraised).
Qed.
End ExistingSystemOrder.

(** C5.  The segments that the enhanced commentator saves are in
    non-decreasing order of timestamp, whatever order they were produced
    in.  The advanced generator does not sort: the segments that it
    saves, on a video with a positive frame rate, are in non-decreasing
    order of timestamp when the detections file that the run finds in
    its output directory, if any, is in order of timestamp and the
    backup does not take over from the existing system after segments
    were appended; it never takes over when no call of
    [generate_commentary] raises [ImportError]. *)
Theorem persisted_segments_sorted_one_system :
  forall (CommentatorState : Type)
         (generate_commentary :
            CommentatorState -> BuyCommentary.Event -> BuyCommentary.Outcome * CommentatorState),
    (forall (voice_enabled : bool) (synth : nat -> string -> bool)
            (c c' : Enhanced.Commentator) (saved : Enhanced.Results),
        Enhanced.generate_voice_commentary voice_enabled synth c = (c', Some saved) ->
        sorted_by_key Enhanced.timestamp (Enhanced.saved_segments saved))
    /\ (forall (fps : Q) (n : nat) (yolo : Advanced.Yolo)
               (system : Advanced.System CommentatorState) (r : Rng)
               (dir : Advanced.OutputDir) (segs : list Advanced.Segment),
           (0 < fps)%Q ->
           earlier_ordered dir ->
           backup_takes_over generate_commentary system (loaded_detections fps n yolo dir)
           = false ->
           Advanced.process_video generate_commentary fps n yolo system r dir = Some segs ->
           sorted_by_key Advanced.timestamp segs)
    /\ (forall (system : Advanced.System CommentatorState) (dets : list Advanced.Detection),
           (forall c event,
               fst (generate_commentary c event)
               <> BuyCommentary.Raised BuyCommentary.ImportError) ->
           backup_takes_over generate_commentary system dets = false).
Proof.
  intros CommentatorState generate_commentary. split; [|split].
  - apply enhanced_saved_sorted.
  - apply advanced_saved_sorted.
  - apply no_import_error_no_takeover.
Qed.

Lemma persisted_segments_sorted_one_system_witness :
  exists (saved : Enhanced.Results) (segs backup : list Advanced.Segment),
    map Enhanced.timestamp (Enhanced.commentary_segments sample_commentator) = [20; 0; 12]
    /\ snd (Enhanced.generate_voice_commentary true flaky_synth sample_commentator)
       = Some saved
    /\ sorted_by_key Enhanced.timestamp (Enhanced.saved_segments saved)
    /\ Advanced.process_video plain_commentary 30 200 Advanced.NoModel
         (Advanced.Available tt) 3%nat empty_dir = Some segs
    /\ sorted_by_key Advanced.timestamp segs
    /\ Advanced.process_video plain_commentary 30 200 Advanced.NoModel
         (Advanced.Unavailable BuyCommentary.ImportError) 3%nat empty_dir = Some backup
    /\ sorted_by_key Advanced.timestamp backup
    /\ backup_takes_over plain_commentary (Advanced.Available tt)
         (loaded_detections 30 200 Advanced.NoModel empty_dir) = false.
Proof.
  eexists. eexists. eexists.
  split; [reflexivity|]. split; [reflexivity|]. split.
  - eapply (proj1 (persisted_segments_sorted_one_system unit plain_commentary)
              true flaky_synth sample_commentator
              (fst (Enhanced.generate_voice_commentary true flaky_synth sample_commentator))).
    reflexivity.
  - split; [vm_compute; reflexivity|]. split.
    + eapply (proj1 (proj2 (persisted_segments_sorted_one_system unit plain_commentary))
                30 200%nat Advanced.NoModel (Advanced.Available tt) 3%nat empty_dir);
        [reflexivity|intros dets H; discriminate|vm_compute; reflexivity
        |vm_compute; reflexivity].
    + split; [vm_compute; reflexivity|]. split.
      * eapply (proj1 (proj2 (persisted_segments_sorted_one_system unit plain_commentary))
                  30 200%nat Advanced.NoModel
                  (Advanced.Unavailable BuyCommentary.ImportError) 3%nat empty_dir);
          [reflexivity|intros dets H; discriminate|vm_compute; reflexivity
          |vm_compute; reflexivity].
      * apply (proj2 (proj2 (persisted_segments_sorted_one_system unit plain_commentary))).
        intros c event H. discriminate.
Defined.

(** C5, as first stated, fails.  A 200-frame video at 30 frames per
    second gives mock detections at 0, 3 and 6 seconds.  The commentator
    answers twice and raises [ImportError] in its third call; the backup
    then goes through all three detections, and the generator saves
    segments at 0, 3, 0, 3 and 6 seconds. *)
Lemma backup_after_existing_out_of_order :
  exists segs : list Advanced.Segment,
    Advanced.process_video raises_on_third 30 200 Advanced.NoModel
      (Advanced.Available 0%nat) 3%nat empty_dir = Some segs
    /\ map (fun s => Qred (Advanced.timestamp s)) segs = [0; 3; 0; 3; 6]
    /\ ~ sorted_by_key Advanced.timestamp segs.
Proof.
  eexists. split; [vm_compute; reflexivity|]. split; [vm_compute; reflexivity|].
  intros Hsorted.
  match type of Hsorted with
  | sorted_by_key _ (?s0 :: ?s1 :: ?s2 :: ?rest) =>
      pose proof (sorted_by_key_adjacent [s0] rest s1 s2 Hsorted) as Hle
  end.
  vm_compute in Hle. apply Hle. reflexivity.
Qed.

(** The generator loads the detections file that it finds, in the order
    of the file: detections left at 5 and 2 seconds give segments at 5
    and 2 seconds. *)
Example earlier_detections_out_of_order :
  exists segs : list Advanced.Segment,
    Advanced.process_video plain_commentary 30 200 Advanced.NoModel
      (Advanced.Available tt) 3%nat unordered_dir = Some segs
    /\ map Advanced.timestamp segs = [5; 2]
    /\ ~ sorted_by_key Advanced.timestamp segs.
Proof.
  eexists. split; [vm_compute; reflexivity|]. split; [reflexivity|].
  intros Hsorted.
  match type of Hsorted with
  | sorted_by_key _ (?s0 :: ?s1 :: ?rest) =>
      pose proof (sorted_by_key_adjacent [] rest s0 s1 Hsorted) as Hle
  end.
  vm_compute in Hle. apply Hle. reflexivity.
Qed.

(** ** Weapon aliases *)

Lemma first_weapon_declared (text : string) (table : list (string * list string)) :
  forall w,
    Video.first_weapon table text = Some w <->
    exists before variants after,
      table = (before ++ (w, variants) :: after)%list
      /\ Text.any_in variants text = true
      /\ forallb (fun entry => negb (entry_matches text entry)) before = true.
Proof.
  induction table as [|[w0 vs0] table IH]; intros w; simpl.
  - split; [discriminate|].
    intros (before & variants & after & Heq & _). destruct before; discriminate.
  - destruct (Text.any_in vs0 text) eqn:E.
    + split.
      * intros H. injection H as <-. exists [], vs0, table. repeat split. exact E.
      * intros (before & variants & after & Heq & Hm & Hbefore).
        destruct before as [|[w1 vs1] before]; simpl in Heq.
        -- injection Heq as -> _ _. reflexivity.
        -- injection Heq as -> -> _. simpl in Hbefore.
           unfold entry_matches in Hbefore. simpl in Hbefore.
           rewrite E in Hbefore. discriminate.
    + rewrite IH. split.
      * intros (before & variants & after & Heq & Hm & Hbefore).
        exists ((w0, vs0) :: before), variants, after. split; [|split].
        -- simpl. rewrite Heq. reflexivity.
        -- exact Hm.
        -- simpl. unfold entry_matches at 1. simpl. rewrite E. exact Hbefore.
      * intros (before & variants & after & Heq & Hm & Hbefore).
        destruct before as [|[w1 vs1] before]; simpl in Heq.
        -- injection Heq as -> -> _. congruence.
        -- injection Heq as _ _ ->. exists before, variants, after.
           split; [reflexivity|]. split; [exact Hm|].
           simpl in Hbefore. apply andb_true_iff in Hbefore. apply Hbefore.
Qed.

Lemma classify_text_weapon (raw : string) (ts : Q) (e : BuyCommentary.Event) :
  Video.classify_text raw ts = Some e ->
  BuyCommentary.event_type e <> BuyCommentary.SHIELD_OWNED ->
  Video.first_weapon Video.weapons (Text.strip (Text.lower raw))
  = Some (BuyCommentary.weapon e)
  /\ (Text.any_in requesting_keywords (Text.strip (Text.lower raw)) = true
      /\ BuyCommentary.event_type e = BuyCommentary.REQUESTING_WEAPON
      \/ Text.any_in requesting_keywords (Text.strip (Text.lower raw)) = false
         /\ Text.any_in owned_keywords (Text.strip (Text.lower raw)) = true
         /\ BuyCommentary.event_type e = BuyCommentary.WEAPON_OWNED).
Proof.
  unfold Video.classify_text, requesting_keywords, owned_keywords.
  set (text := Text.strip (Text.lower raw)).
  destruct (Text.any_in ["requesting"; "request"; "req"]%string text).
  - destruct (Video.first_weapon Video.weapons text) as [w|] eqn:Ew.
    + intros H _. injection H as <-. split; [reflexivity|]. left. split; reflexivity.
    + destruct (Text.any_in ["owned"; "ownd"; "own"; "equipped"; "omned"]%string text);
        destruct (Text.any_in ["shield"; "armor"; "shields"]%string text
                  && Text.any_in ["owned"; "equipped"; "omned"]%string text);
        intros H Hty; try discriminate; injection H as <-; exfalso; apply Hty; reflexivity.
  - destruct (Text.any_in ["owned"; "ownd"; "own"; "equipped"; "omned"]%string text).
    + destruct (Video.first_weapon Video.weapons text) as [w|] eqn:Ew.
      * intros H _. injection H as <-. split; [reflexivity|]. right.
        split; [reflexivity|]. split; reflexivity.
      * destruct (Text.any_in ["shield"; "armor"; "shields"]%string text
                  && Text.any_in ["owned"; "equipped"; "omned"]%string text);
          intros H Hty; try discriminate; injection H as <-; exfalso; apply Hty; reflexivity.
    + destruct (Text.any_in ["shield"; "armor"; "shields"]%string text
                && Text.any_in ["owned"; "equipped"; "omned"]%string text);
        intros H Hty; try discriminate; injection H as <-; exfalso; apply Hty; reflexivity.
Qed.

Lemma classify_text_requesting (raw : string) (ts : Q) (w : string) :
  Text.any_in requesting_keywords (Text.strip (Text.lower raw)) = true ->
  Video.first_weapon Video.weapons (Text.strip (Text.lower raw)) = Some w ->
  Video.classify_text raw ts = Some (Video.mk_event ts BuyCommentary.REQUESTING_WEAPON w).
Proof.
  unfold Video.classify_text, requesting_keywords.
  intros Hreq Hw. rewrite Hreq, Hw. reflexivity.
Qed.

Lemma classify_text_owned (raw : string) (ts : Q) (w : string) :
  Text.any_in requesting_keywords (Text.strip (Text.lower raw)) = false ->
  Text.any_in owned_keywords (Text.strip (Text.lower raw)) = true ->
  Video.first_weapon Video.weapons (Text.strip (Text.lower raw)) = Some w ->
  Video.classify_text raw ts = Some (Video.mk_event ts BuyCommentary.WEAPON_OWNED w).
Proof.
  unfold Video.classify_text, requesting_keywords, owned_keywords.
  intros Hreq Hown Hw. rewrite Hreq, Hown, Hw. reflexivity.
Qed.

Lemma classify_text_no_keyword (raw : string) (ts : Q) :
  Text.any_in requesting_keywords (Text.strip (Text.lower raw)) = false ->
  Text.any_in owned_keywords (Text.strip (Text.lower raw)) = false ->
  Video.classify_text raw ts = None.
Proof.
  unfold Video.classify_text, requesting_keywords, owned_keywords.
  intros Hreq Hown. rewrite Hreq, Hown.
  unfold Text.any_in in Hown. cbn [existsb] in Hown.
  apply orb_false_iff in Hown. destruct Hown as [Howned Hown].
  apply orb_false_iff in Hown. destruct Hown as [_ Hown].
  apply orb_false_iff in Hown. destruct Hown as [_ Hown].
  apply orb_false_iff in Hown. destruct Hown as [Hequipped Hown].
  apply orb_false_iff in Hown. destruct Hown as [Homned _].
  unfold Text.any_in at 2. cbn [existsb].
  rewrite Howned, Hequipped, Homned. cbn [orb]. rewrite andb_false_r. reflexivity.
Qed.

Lemma vandal_alias (text : string) :
  Text.contains "vandl" text = true \/ Text.contains "vanda" text = true ->
  Video.first_weapon Video.weapons text = Some "vandal"%string.
Proof.
  intros H. unfold Video.weapons. cbn [Video.first_weapon].
  unfold Text.any_in. cbn [existsb].
  destruct H as [H|H]; rewrite H; rewrite ?orb_true_r; reflexivity.
Qed.

(** C8.  In a text with a requesting or an owned keyword, the weapon is
    resolved through the alias table: the event names the first weapon
    of the table, in the order of its declaration, with an alias in the
    text, so that of two weapons with aliases in the text the one
    declared first wins; "vandl" or "vanda" in such a text resolves to
    "vandal", and "requesting vandal ghost", which matches aliases of
    both vandal and ghost, resolves to "vandal".  Every requesting or
    owned event comes about this way.  A text without a keyword is not
    resolved at all: no event is made. *)
Theorem weapon_alias_needs_keyword :
  forall (raw : string) (ts : Q),
    let text := Text.strip (Text.lower raw) in
    (forall w : string,
        Text.any_in requesting_keywords text = true ->
        first_declared text w ->
        Video.classify_text raw ts
        = Some (Video.mk_event ts BuyCommentary.REQUESTING_WEAPON w))
    /\ (forall w : string,
           Text.any_in requesting_keywords text = false ->
           Text.any_in owned_keywords text = true ->
           first_declared text w ->
           Video.classify_text raw ts
           = Some (Video.mk_event ts BuyCommentary.WEAPON_OWNED w))
    /\ (Text.contains "vandl" text = true \/ Text.contains "vanda" text = true ->
        (Text.any_in requesting_keywords text = true ->
         Video.classify_text raw ts
         = Some (Video.mk_event ts BuyCommentary.REQUESTING_WEAPON "vandal"))
        /\ (Text.any_in requesting_keywords text = false ->
            Text.any_in owned_keywords text = true ->
            Video.classify_text raw ts
            = Some (Video.mk_event ts BuyCommentary.WEAPON_OWNED "vandal")))
    /\ (forall e : BuyCommentary.Event,
           Video.classify_text raw ts = Some e ->
           BuyCommentary.event_type e <> BuyCommentary.SHIELD_OWNED ->
           first_declared text (BuyCommentary.weapon e)
           /\ (Text.any_in requesting_keywords text = true
               \/ Text.any_in owned_keywords text = true))
    /\ (Text.any_in requesting_keywords text = false ->
        Text.any_in owned_keywords text = false ->
        Video.classify_text raw ts = None)
    /\ (entry_matches "requesting vandal ghost"
          ("vandal", ["vandal"; "vandl"; "vanda"])%string = true
        /\ entry_matches "requesting vandal ghost"
             ("ghost", ["ghost"; "gost"; "ghst"])%string = true
        /\ Video.classify_text "requesting vandal ghost" ts
           = Some (Video.mk_event ts BuyCommentary.REQUESTING_WEAPON "vandal")
        /\ Video.classify_text "ghost and vandal owned" ts
           = Some (Video.mk_event ts BuyCommentary.WEAPON_OWNED "vandal")).
Proof.
  intros raw ts text. split; [|split; [|split; [|split; [|split]]]].
  - intros w Hreq Hfirst. apply classify_text_requesting; [exact Hreq|].
    apply first_weapon_declared, Hfirst.
  - intros w Hreq Hown Hfirst. apply classify_text_owned; [exact Hreq|exact Hown|].
    apply first_weapon_declared, Hfirst.
  - intros Hvandal. split.
    + intros Hreq. apply classify_text_requesting; [exact Hreq|].
      apply vandal_alias, Hvandal.
    + intros Hreq Hown. apply classify_text_owned; [exact Hreq|exact Hown|].
      apply vandal_alias, Hvandal.
  - intros e Hclass Hty.
    destruct (classify_text_weapon raw ts e Hclass Hty) as [Hw Hkey]. split.
    + apply first_weapon_declared, Hw.
    + destruct Hkey as [[Hreq _]|[_ [Hown _]]]; [left; exact Hreq|right; exact Hown].
  - apply classify_text_no_keyword.
  - split; [reflexivity|]. split; [reflexivity|]. split; reflexivity.
Qed.

Lemma weapon_alias_needs_keyword_witness :
  Video.classify_text "REQ Vandl pls" 0
  = Some (Video.mk_event 0 BuyCommentary.REQUESTING_WEAPON "vandal")
  /\ Video.classify_text " Owned GHST and Phantom " 0
     = Some (Video.mk_event 0 BuyCommentary.WEAPON_OWNED "phantom")
  /\ first_declared "owned ghst and phantom" "phantom"
  /\ Video.classify_text "Phantom GHST" 0 = None.
Proof.
  split; [|split; [|split]].
  - apply (proj1 (weapon_alias_needs_keyword "REQ Vandl pls" 0) "vandal"%string).
    + reflexivity.
    + exists [], ["vandal"; "vandl"; "vanda"]%string, (tl Video.weapons).
      split; [reflexivity|]. split; reflexivity.
  - apply (proj1 (proj2 (weapon_alias_needs_keyword " Owned GHST and Phantom " 0))
             "phantom"%string).
    + reflexivity.
    + reflexivity.
    + exists [hd ("", []) Video.weapons]%string, ["phantom"; "fantom"; "phant"]%string,
             (tl (tl Video.weapons)).
      split; [reflexivity|]. split; reflexivity.
  - apply (proj1 (proj2 (proj2 (proj2
             (weapon_alias_needs_keyword " Owned GHST and Phantom " 0))))
             (Video.mk_event 0 BuyCommentary.WEAPON_OWNED "phantom")).
    + reflexivity.
    + discriminate.
  - apply (proj1 (proj2 (proj2 (proj2 (proj2
             (weapon_alias_needs_keyword "Phantom GHST" 0)))))); reflexivity.
Defined.

(** C8, as first stated, fails on its own input: "vandal ghost" has
    aliases of vandal and of ghost in it and no keyword, and so have
    "vandl" and "vanda" on their own; the classifier makes no event of
    them, and no weapon is resolved. *)
Lemma vandal_ghost_not_resolved :
  entry_matches "vandal ghost" ("vandal", ["vandal"; "vandl"; "vanda"])%string = true
  /\ entry_matches "vandal ghost" ("ghost", ["ghost"; "gost"; "ghst"])%string = true
  /\ Video.classify_text "vandal ghost" 0 = None
  /\ Video.classify_text "vandl" 0 = None
  /\ Video.classify_text "vanda" 0 = None
  /\ ~ (exists e : BuyCommentary.Event,
          Video.classify_text "vandal ghost" 0 = Some e
          /\ BuyCommentary.weapon e = "vandal"%string).
Proof.
  split; [reflexivity|]. split; [reflexivity|]. split; [reflexivity|].
  split; [reflexivity|]. split; [reflexivity|].
  intros (e & H & _). vm_compute in H. discriminate.
Qed.

(** ** Classification *)

Section Classification.
Variable CommentatorState : Type.

Lemma extract_loop_pure (ts : Q) (results : list Video.OcrEntry) :
  forall g : Video.Generator CommentatorState,
    Video.extract_loop results ts g = (flat_map (events_of_entry ts) results, g).
Proof.
  induction results as [|result rest IH]; intros g; simpl.
  - reflexivity.
  - unfold events_of_entry.
    destruct (String.eqb _ ""%string).
    + apply IH.
    + unfold Video.bind, Video._classify_text_to_event, Video.ret.
      rewrite IH.
      destruct (Video.classify_text _ ts); reflexivity.
Qed.

Lemma extract_events_pure (ocr : Video.FrameOcr) (ts : Q)
    (g : Video.Generator CommentatorState) :
  Video._extract_events_from_ocr ocr ts g = (events_of_ocr ocr ts, g).
Proof.
  destruct ocr as [results|]; simpl.
  - apply extract_loop_pure.
  - reflexivity.
Qed.
End Classification.

(** C7.  The events extracted from a frame's OCR results do not depend on
    the generator state they are extracted in, and extraction leaves
    that state unchanged, so a second extraction yields the same events;
    and they depend on the results as a collection only: reordering the
    results reorders the events. *)
Theorem classification_is_pure :
  forall (CommentatorState : Type) (ts : Q) (ocr : Video.FrameOcr)
         (g1 g2 : Video.Generator CommentatorState),
    fst (Video._extract_events_from_ocr ocr ts g1)
    = fst (Video._extract_events_from_ocr ocr ts g2)
    /\ snd (Video._extract_events_from_ocr ocr ts g1) = g1
    /\ fst (Video._extract_events_from_ocr ocr ts
              (snd (Video._extract_events_from_ocr ocr ts g1)))
       = fst (Video._extract_events_from_ocr ocr ts g1)
    /\ (forall results results' : list Video.OcrEntry,
           Permutation results results' ->
           Permutation
             (fst (Video._extract_events_from_ocr (Some results) ts g1))
             (fst (Video._extract_events_from_ocr (Some results') ts g1))).
Proof.
  intros CommentatorState ts ocr g1 g2.
  rewrite !extract_events_pure. cbn [fst snd]. rewrite ?extract_events_pure.
  cbn [fst]. repeat split.
  intros results results' Hperm. rewrite !extract_events_pure. cbn [fst].
  unfold events_of_ocr. apply Permutation_flat_map, Hperm.
Qed.

Lemma classification_is_pure_witness :
  Permutation
    (fst (Video._extract_events_from_ocr
            (Some [Some "REQUESTING VANDAL TENZ"; None; Some "owned ghost"]%string)
            12 used_generator))
    (fst (Video._extract_events_from_ocr
            (Some [Some "owned ghost"; Some "REQUESTING VANDAL TENZ"; None]%string)
            12 used_generator)).
Proof.
  apply (proj2 (proj2 (proj2
           (classification_is_pure unit 12 None used_generator used_generator)))).
  apply Permutation_sym.
  apply (Permutation_cons_app [Some "REQUESTING VANDAL TENZ"%string; None] []).
  rewrite app_nil_r. apply Permutation_refl.
Defined.

(** ** Speech synthesis failures *)

Lemma voice_loop_nth (synth : nat -> string -> bool) (segs : list Voice.Segment) :
  forall (i k : nat) (s : Voice.Segment),
    nth_error segs k = Some s ->
    exists s',
      nth_error (fst (Voice.voice_loop synth i segs)) k = Some s'
      /\ Voice.text s' = Voice.text s
      /\ Voice.timestamp s' = Voice.timestamp s
      /\ Voice.style s' = Voice.style s
      /\ Voice.audio_file s'
         = if synth (i + k)%nat (Voice.text s)
           then Val {| stem := "commentary"; stamp := Voice.timestamp s |}
           else Null.
Proof.
  induction segs as [|s0 rest IH]; intros i k s Hk.
  - destruct k; discriminate.
  - cbn [Voice.voice_loop]. unfold Voice.voice_step.
    destruct (Voice.voice_loop synth (S i) rest) as [rest' files'] eqn:Erest.
    destruct k as [|k]; simpl in Hk.
    + injection Hk as ->. rewrite Nat.add_0_r.
      destruct (synth i (Voice.text s)); eexists; repeat split.
    + destruct (IH (S i) k s Hk) as (s' & Hnth & Hrest).
      rewrite Erest in Hnth. cbn [fst] in Hnth.
      replace (i + S k)%nat with (S i + k)%nat by lia.
      exists s'. split; [|exact Hrest].
      destruct (synth i (Voice.text s0)); exact Hnth.
Qed.

Lemma voice_loop_length (synth : nat -> string -> bool) (segs : list Voice.Segment) :
  forall i, List.length (fst (Voice.voice_loop synth i segs)) = List.length segs.
Proof.
  induction segs as [|s0 rest IH]; intros i.
  - reflexivity.
  - cbn [Voice.voice_loop]. specialize (IH (S i)).
    destruct (Voice.voice_step synth i s0) as [s0' files].
    destruct (Voice.voice_loop synth (S i) rest) as [rest' files'].
    simpl in *. rewrite IH. reflexivity.
Qed.

Lemma enhanced_voice_loop_nth (synth : nat -> string -> bool) (segs : list Enhanced.Segment) :
  forall (i k : nat) (s : Enhanced.Segment),
    nth_error segs k = Some s ->
    nth_error (Enhanced.voice_loop synth i segs) k
    = Some (if synth (i + k)%nat (Enhanced.text s)
            then Enhanced.set_audio_file s
                   (Val {| stem := "gameplay"; stamp := Enhanced.timestamp s |})
            else s).
Proof.
  induction segs as [|s0 rest IH]; intros i k s Hk.
  - destruct k; discriminate.
  - cbn [Enhanced.voice_loop]. destruct k as [|k]; simpl in Hk.
    + injection Hk as ->. rewrite Nat.add_0_r. reflexivity.
    + replace (i + S k)%nat with (S i + k)%nat by lia.
      simpl. apply IH, Hk.
Qed.

Lemma enhanced_voice_loop_length (synth : nat -> string -> bool)
    (segs : list Enhanced.Segment) :
  forall i, List.length (Enhanced.voice_loop synth i segs) = List.length segs.
Proof.
  induction segs as [|s0 rest IH]; intros i; simpl.
  - reflexivity.
  - rewrite IH. reflexivity.
Qed.

Lemma generate_event_commentary_without_audio
    (c : Enhanced.Commentator) (e : Analyzer.GameplayEvent) :
  without_audio (Enhanced.commentary_segments c) ->
  without_audio (Enhanced.commentary_segments (Enhanced._generate_event_commentary c e)).
Proof.
  unfold without_audio, Enhanced._generate_event_commentary. intros H.
  destruct (choice _ _ _) as [chosen r]. cbn [Enhanced.commentary_segments].
  apply Forall_app. split; [exact H|]. constructor; [reflexivity|constructor].
Qed.

Lemma comment_on_events_without_audio (events : list Analyzer.GameplayEvent) :
  forall c : Enhanced.Commentator,
    without_audio (Enhanced.commentary_segments c) ->
    without_audio (Enhanced.commentary_segments (Enhanced.comment_on_events c events)).
Proof.
  unfold Enhanced.comment_on_events.
  induction events as [|e rest IH]; intros c H; simpl.
  - exact H.
  - apply IH. destruct (3 <=? Analyzer.importance e)%Z.
    + apply generate_event_commentary_without_audio, H.
    + exact H.
Qed.

Lemma analyze_frames_without_audio (frames : list (Q * Analyzer.Frame)) :
  forall st : Enhanced.Loop,
    without_audio (Enhanced.commentary_segments (Enhanced.self st)) ->
    without_audio
      (Enhanced.commentary_segments
         (Enhanced.self (fold_left Enhanced.analyze_frame frames st))).
Proof.
  induction frames as [|[ts f] rest IH]; intros st H; simpl.
  - exact H.
  - apply IH. cbn [Enhanced.self].
    apply comment_on_events_without_audio. exact H.
Qed.

(** The segments of an analysed video carry no audio reference yet. *)
Lemma analyzed_without_audio
    (fuel : nat) (seed : Rng) (frames : list (Q * Analyzer.Frame)) (duration : Q)
    (c : Enhanced.Commentator) :
  (Z.to_nat (Qceiling duration - 0) < fuel)%nat ->
  Enhanced.analyze_gameplay_video fuel (Enhanced.new_commentator seed) frames duration
  = Some c ->
  without_audio (Enhanced.commentary_segments c).
Proof.
  intros Hfuel. unfold Enhanced.analyze_gameplay_video, Enhanced._add_general_commentary.
  set (c0 := Enhanced.self (Enhanced.analyze_frames (Enhanced.new_commentator seed) frames)).
  destruct (general_loop_spec duration fuel 0 c0 Hfuel)
    as (result & fillers & Hrun & _ & Hsegs & Hall).
  rewrite Hrun. intros H. injection H as <-.
  unfold without_audio. rewrite Hsegs. apply Forall_app. split.
  - apply analyze_frames_without_audio. constructor.
  - eapply Forall_impl; [|exact Hall]. cbv beta.
    intros f (Hf & _). apply Hf.
Qed.

(** C9.  With the speech service enabled, both voice loops visit every
    segment, whatever fails: the list keeps its length, and the segment
    at each position keeps its text and timestamp.  Where synthesis
    fails the voice generator stores a null audio reference, and the
    enhanced commentator leaves the segment as it was, without an audio
    reference; where synthesis succeeds the segment gets its audio file,
    also after earlier failures.  The enhanced commentator saves the
    whole list. *)
Theorem synthesis_failure_keeps_segment :
  forall (synth : nat -> string -> bool),
    (forall (g : Voice.Generator),
        let g' := Voice.generate_voice_commentary true synth g in
        List.length (Voice.commentary_segments g')
        = List.length (Voice.commentary_segments g)
        /\ forall (k : nat) (s : Voice.Segment),
             nth_error (Voice.commentary_segments g) k = Some s ->
             exists s',
               nth_error (Voice.commentary_segments g') k = Some s'
               /\ Voice.text s' = Voice.text s
               /\ Voice.timestamp s' = Voice.timestamp s
               /\ (synth k (Voice.text s) = false -> Voice.audio_file s' = Null)
               /\ (synth k (Voice.text s) = true ->
                   Voice.audio_file s'
                   = Val {| stem := "commentary"; stamp := Voice.timestamp s |}))
    /\ (forall (c : Enhanced.Commentator),
           without_audio (Enhanced.commentary_segments c) ->
           let sorted := sort_by_key Enhanced.timestamp (Enhanced.commentary_segments c) in
           let out := Enhanced.generate_voice_commentary true synth c in
           Permutation (Enhanced.commentary_segments c) sorted
           /\ List.length (Enhanced.commentary_segments (fst out))
              = List.length (Enhanced.commentary_segments c)
           /\ (exists saved,
                  snd out = Some saved
                  /\ Enhanced.saved_segments saved = Enhanced.commentary_segments (fst out))
           /\ forall (k : nat) (s : Enhanced.Segment),
                nth_error sorted k = Some s ->
                exists s',
                  nth_error (Enhanced.commentary_segments (fst out)) k = Some s'
                  /\ Enhanced.text s' = Enhanced.text s
                  /\ Enhanced.timestamp s' = Enhanced.timestamp s
                  /\ (synth k (Enhanced.text s) = false ->
                      s' = s /\ slot_get (Enhanced.audio_file s') = None)
                  /\ (synth k (Enhanced.text s) = true ->
                      Enhanced.audio_file s'
                      = Val {| stem := "gameplay"; stamp := Enhanced.timestamp s |})).
Proof.
  intros synth. split.
  - intros g g'. subst g'. unfold Voice.generate_voice_commentary. cbn [negb].
    pose proof (voice_loop_length synth (Voice.commentary_segments g) 0) as Hlen.
    pose proof (voice_loop_nth synth (Voice.commentary_segments g) 0) as Hnth.
    destruct (Voice.voice_loop synth 0 (Voice.commentary_segments g)) as [segs files].
    cbn [fst Voice.commentary_segments] in *. split; [exact Hlen|].
    intros k s Hk. destruct (Hnth k s Hk) as (s' & Hs' & Htext & Hts & _ & Haudio).
    exists s'. split; [exact Hs'|]. split; [exact Htext|]. split; [exact Hts|].
    cbn [Nat.add] in Haudio. split; intros E; rewrite E in Haudio; exact Haudio.
  - intros c Hc sorted out. subst out. unfold Enhanced.generate_voice_commentary.
    cbn [negb fst snd Enhanced.commentary_segments]. fold sorted.
    assert (Hperm : Permutation (Enhanced.commentary_segments c) sorted)
      by apply sort_by_key_perm.
    split; [exact Hperm|]. split.
    + rewrite enhanced_voice_loop_length. symmetry. apply Permutation_length, Hperm.
    + split; [eexists; split; reflexivity|].
      intros k s Hk.
      rewrite (enhanced_voice_loop_nth synth sorted 0 k s Hk). cbn [Nat.add].
      eexists. split; [reflexivity|].
      assert (Hs : Enhanced.audio_file s = NoKey).
      { unfold without_audio in Hc. rewrite Forall_forall in Hc. apply Hc.
        apply Permutation_in with sorted; [apply Permutation_sym, Hperm|].
        apply nth_error_In with k, Hk. }
      destruct (synth k (Enhanced.text s)).
      * split; [reflexivity|]. split; [reflexivity|].
        split; [discriminate|]. intros _. reflexivity.
      * split; [reflexivity|]. split; [reflexivity|]. split.
        -- intros _. split; [reflexivity|]. rewrite Hs. reflexivity.
        -- discriminate.
Qed.

Lemma synthesis_failure_keeps_segment_witness :
  (exists s',
      nth_error (Voice.commentary_segments
                   (Voice.generate_voice_commentary true fails_second
                      sample_voice_generator)) 1 = Some s'
      /\ Voice.text s' = "Smart economic management."%string
      /\ Voice.audio_file s' = Null)
  /\ (exists s',
         nth_error (Voice.commentary_segments
                      (Voice.generate_voice_commentary true fails_second
                         sample_voice_generator)) 2 = Some s'
         /\ Voice.audio_file s' = Val {| stem := "commentary"; stamp := 24 |})
  /\ List.length (Enhanced.commentary_segments
                    (fst (Enhanced.generate_voice_commentary true fails_second
                            sample_commentator))) = 3%nat.
Proof.
  split; [|split].
  - destruct (proj2 (proj1 (synthesis_failure_keeps_segment fails_second)
                       sample_voice_generator)
                1%nat
                {| Voice.timestamp := 12; Voice.text := "Smart economic management."%string;
                   Voice.style := "analysis"%string; Voice.frame_path := "f4"%string;
                   Voice.audio_file := NoKey |} eq_refl)
      as (s' & Hnth & Htext & _ & Hfail & _).
    exists s'. split; [exact Hnth|]. split; [exact Htext|]. apply Hfail. reflexivity.
  - destruct (proj2 (proj1 (synthesis_failure_keeps_segment fails_second)
                       sample_voice_generator)
                2%nat
                {| Voice.timestamp := 24; Voice.text := "Full send mode activated!"%string;
                   Voice.style := "excitement"%string; Voice.frame_path := "f8"%string;
                   Voice.audio_file := NoKey |} eq_refl)
      as (s' & Hnth & _ & _ & _ & Hok).
    exists s'. split; [exact Hnth|]. apply Hok. reflexivity.
  - assert (Hfresh : without_audio (Enhanced.commentary_segments sample_commentator))
      by (unfold without_audio; vm_compute; repeat constructor).
    apply (proj1 (proj2 (proj2 (synthesis_failure_keeps_segment fails_second)
                           sample_commentator Hfresh))).
Defined.

(** ** The throttle of the video generator *)

Lemma spaced_snoc (interval : Q) (stamps : list Q) (t : Q) :
  spaced interval stamps ->
  Forall (fun earlier => (interval <= t - earlier)%Q) stamps ->
  spaced interval (stamps ++ [t]).
Proof.
  unfold spaced. intros Hsp Hall.
  induction Hsp as [|a l Ha Hl IH]; simpl.
  - constructor; constructor.
  - inversion Hall as [|? ? Hat Hall']; subst. constructor.
    + apply Forall_app. split; [exact Ha|]. constructor; [exact Hat|constructor].
    + apply IH, Hall'.
Qed.

Section Throttle.
Variable CommentatorState : Type.
Variable generate_commentary :
  CommentatorState -> BuyCommentary.Event -> BuyCommentary.Outcome * CommentatorState.

Abbreviation Gen := (Video.Generator CommentatorState).
Abbreviation for_events := (Video.generate_commentary_for_events generate_commentary).

Lemma for_events_first_only (e : BuyCommentary.Event) (rest : list BuyCommentary.Event)
    (ts : Q) (g : Gen) :
  for_events (e :: rest) ts g = for_events [e] ts g.
Proof. reflexivity. Qed.

Lemma for_events_inside_window (events : list BuyCommentary.Event) (ts : Q) (g : Gen) :
  (ts - Video.last_commentary_time g < Video.commentary_interval g)%Q ->
  for_events events ts g = (None, g).
Proof.
  intros H. apply Qltb_lt in H. unfold Video.generate_commentary_for_events.
  destruct events as [|e rest]; [reflexivity|].
  destruct (Video.commentator g); [|reflexivity].
  rewrite H. reflexivity.
Qed.

Lemma for_events_outside_window
    (e : BuyCommentary.Event) (rest : list BuyCommentary.Event) (ts : Q) (g : Gen)
    (c c' : CommentatorState) (commentary : BuyCommentary.Commentary) :
  (Video.commentary_interval g <= ts - Video.last_commentary_time g)%Q ->
  Video.commentator g = Some c ->
  generate_commentary c e = (BuyCommentary.Returned (Some commentary), c') ->
  for_events (e :: rest) ts g
  = (Some (BuyCommentary.text commentary), Video.set_commentator g c' ts).
Proof.
  intros H Hc Hgen. apply Qltb_ge in H. unfold Video.generate_commentary_for_events.
  rewrite Hc, H, Hgen. reflexivity.
Qed.

(** What a call leaves behind: the interval and the emitted commentary
    are untouched; the time of the last commentary moves, to [ts], only
    on an answer, and an answer comes only outside the window. *)
Lemma for_events_spec (events : list BuyCommentary.Event) (ts : Q) (g g' : Gen)
    (res : option string) :
  for_events events ts g = (res, g') ->
  Video.commentary_interval g' = Video.commentary_interval g
  /\ Video.all_commentary g' = Video.all_commentary g
  /\ ((res = None /\ Video.last_commentary_time g' = Video.last_commentary_time g)
      \/ (Video.last_commentary_time g' = ts
          /\ (Video.commentary_interval g <= ts - Video.last_commentary_time g)%Q)).
Proof.
  unfold Video.generate_commentary_for_events.
  destruct events as [|e rest].
  - intros H. injection H as <- <-. auto.
  - destruct (Video.commentator g) as [c|].
    + destruct (Qltb (ts - Video.last_commentary_time g) (Video.commentary_interval g))
        eqn:E.
      * intros H. injection H as <- <-. auto.
      * apply Qltb_ge in E.
        destruct (generate_commentary c e) as [[|[commentary|]] c'];
          intros H; injection H as <- <-; cbn; auto.
    + intros H. injection H as <- <-. auto.
Qed.

Lemma process_one_commentary (ts : Q) (ocr : Video.FrameOcr) (g : Gen) :
  Video.all_commentary (snd (Video.process_one generate_commentary (ts, ocr) g))
  = (Video.all_commentary g
     ++ new_entries generate_commentary g ts (events_of_ocr ocr ts))%list.
Proof.
  unfold Video.process_one, Video.bind. rewrite extract_events_pure.
  unfold new_entries.
  destruct (events_of_ocr ocr ts) as [|e rest] eqn:Eev.
  - simpl. rewrite app_nil_r. reflexivity.
  - rewrite for_events_first_only.
    destruct (for_events [e] ts g) as [res g1] eqn:Erun.
    destruct (for_events_spec _ _ _ _ _ Erun) as (_ & Hall & _).
    cbn [fst]. destruct res as [txt|].
    + destruct (String.eqb txt ""); simpl; rewrite Hall.
      * rewrite app_nil_r. reflexivity.
      * reflexivity.
    + simpl. rewrite Hall, app_nil_r. reflexivity.
Qed.

Lemma process_one_throttled (ts : Q) (ocr : Video.FrameOcr) (g : Gen) :
  (0 <= Video.commentary_interval g)%Q ->
  throttled g ->
  throttled (snd (Video.process_one generate_commentary (ts, ocr) g))
  /\ Video.commentary_interval (snd (Video.process_one generate_commentary (ts, ocr) g))
     = Video.commentary_interval g.
Proof.
  intros Hpos [Hsp Hle]. unfold throttled, emitted in *.
  unfold Video.process_one, Video.bind. rewrite extract_events_pure.
  destruct (events_of_ocr ocr ts) as [|e rest].
  - simpl. auto.
  - destruct (for_events (e :: rest) ts g) as [res g1] eqn:Erun.
    destruct (for_events_spec _ _ _ _ _ Erun) as (Hint & Hall & Hlast).
    assert (Hkeep : spaced (Video.commentary_interval g1)
                      (map Video.entry_timestamp (Video.all_commentary g1))
                    /\ Forall (fun t => (t <= Video.last_commentary_time g1)%Q)
                         (map Video.entry_timestamp (Video.all_commentary g1))).
    { rewrite Hint, Hall. split; [exact Hsp|].
      destruct Hlast as [[_ Hl]|[Hl Hwin]]; rewrite Hl; [exact Hle|].
      eapply Forall_impl; [|exact Hle]. cbv beta. intros t Ht. lra. }
    destruct res as [txt|]; [|simpl; split; [exact Hkeep|exact Hint]].
    destruct (String.eqb txt ""); [simpl; split; [exact Hkeep|exact Hint]|].
    destruct Hlast as [[Hnone _]|[Hl Hwin]]; [discriminate|].
    simpl. rewrite Hint, Hall, Hl, map_app. simpl. split; [|reflexivity]. split.
    + apply spaced_snoc; [exact Hsp|].
      eapply Forall_impl; [|exact Hle]. cbv beta. intros t Ht. lra.
    + apply Forall_app. split.
      * eapply Forall_impl; [|exact Hle]. cbv beta. intros t Ht. lra.
      * constructor; [apply Qle_refl|constructor].
Qed.

Lemma process_frames_throttled (frames : list (Q * Video.FrameOcr)) :
  forall g : Gen,
    (0 <= Video.commentary_interval g)%Q ->
    throttled g ->
    throttled (snd (Video.process_frames generate_commentary frames g)).
Proof.
  induction frames as [|[ts ocr] rest IH]; intros g Hpos Hg.
  - exact Hg.
  - cbn [Video.process_frames]. unfold Video.bind.
    destruct (process_one_throttled ts ocr g Hpos Hg) as [Hg1 Hint].
    destruct (Video.process_one generate_commentary (ts, ocr) g) as [[] g1].
    cbn [snd] in *. apply IH; [rewrite Hint; exact Hpos|exact Hg1].
Qed.

Lemma process_frames_interval (frames : list (Q * Video.FrameOcr)) :
  forall g : Gen,
    (0 <= Video.commentary_interval g)%Q ->
    throttled g ->
    Video.commentary_interval (snd (Video.process_frames generate_commentary frames g))
    = Video.commentary_interval g.
Proof.
  induction frames as [|[ts ocr] rest IH]; intros g Hpos Hg.
  - reflexivity.
  - cbn [Video.process_frames]. unfold Video.bind.
    destruct (process_one_throttled ts ocr g Hpos Hg) as [Hg1 Hint].
    destruct (Video.process_one generate_commentary (ts, ocr) g) as [[] g1].
    cbn [snd] in *. rewrite IH; [exact Hint|rewrite Hint; exact Hpos|exact Hg1].
Qed.
End Throttle.

(** ** Which events the enhanced commentator comments on *)

Lemma generate_event_commentary_segment
    (c : Enhanced.Commentator) (e : Analyzer.GameplayEvent) :
  exists s,
    Enhanced.commentary_segments (Enhanced._generate_event_commentary c e)
    = (Enhanced.commentary_segments c ++ [s])%list
    /\ segment_of_event s e.
Proof.
  unfold Enhanced._generate_event_commentary.
  destruct (choice _ _ _) as [chosen r]. cbn [Enhanced.commentary_segments].
  eexists. split; [reflexivity|]. repeat split.
Qed.

Lemma comment_on_events_segments (events : list Analyzer.GameplayEvent) :
  forall c : Enhanced.Commentator,
    exists news,
      Enhanced.commentary_segments (Enhanced.comment_on_events c events)
      = (Enhanced.commentary_segments c ++ news)%list
      /\ Forall2 segment_of_event news
           (filter (fun e => (3 <=? Analyzer.importance e)%Z) events).
Proof.
  unfold Enhanced.comment_on_events.
  induction events as [|e rest IH]; intros c; simpl.
  - exists []. split; [rewrite app_nil_r; reflexivity|constructor].
  - destruct (3 <=? Analyzer.importance e)%Z.
    + destruct (generate_event_commentary_segment c e) as (s & Hs & Hse).
      destruct (IH (Enhanced._generate_event_commentary c e)) as (news & Hnews & Hall).
      exists (s :: news). split.
      * rewrite Hnews, Hs, <- app_assoc. reflexivity.
      * constructor; assumption.
    + apply IH.
Qed.

(** C1, as the code has it.  The video generator suppresses the
    commentary of a frame whenever less than [commentary_interval] has
    passed since the last commentary, whatever the events are: there is
    no override.  Once the interval has passed, the commentary that the
    commentator returns for the first event is emitted and the time of
    the last commentary becomes the frame's.  So, for a non-negative
    interval, every emitted commentary is at least the interval after
    every earlier one.  The enhanced commentator has no time window: it
    makes one segment for each event of importance 3 or more and none
    for the others. *)
Theorem throttle_without_override :
  forall (CommentatorState : Type)
         (generate_commentary :
            CommentatorState -> BuyCommentary.Event -> BuyCommentary.Outcome * CommentatorState),
    (forall (events : list BuyCommentary.Event) (ts : Q)
            (g : Video.Generator CommentatorState),
        (ts - Video.last_commentary_time g < Video.commentary_interval g)%Q ->
        Video.generate_commentary_for_events generate_commentary events ts g = (None, g))
    /\ (forall (e : BuyCommentary.Event) (rest : list BuyCommentary.Event) (ts : Q)
               (g : Video.Generator CommentatorState) (c c' : CommentatorState)
               (commentary : BuyCommentary.Commentary),
           (Video.commentary_interval g <= ts - Video.last_commentary_time g)%Q ->
           Video.commentator g = Some c ->
           generate_commentary c e = (BuyCommentary.Returned (Some commentary), c') ->
           Video.generate_commentary_for_events generate_commentary (e :: rest) ts g
           = (Some (BuyCommentary.text commentary), Video.set_commentator g c' ts))
    /\ (forall (interval : Q) (c : option CommentatorState)
               (frames : list (Q * Video.FrameOcr)),
           (0 <= interval)%Q ->
           spaced interval
             (emitted (Video.process_video generate_commentary
                         (Video.new_generator interval c) frames)))
    /\ (forall (c : Enhanced.Commentator) (events : list Analyzer.GameplayEvent),
           exists news,
             Enhanced.commentary_segments (Enhanced.comment_on_events c events)
             = (Enhanced.commentary_segments c ++ news)%list
             /\ Forall2 segment_of_event news
                  (filter (fun e => (3 <=? Analyzer.importance e)%Z) events)).
Proof.
  intros CommentatorState generate_commentary. split; [|split; [|split]].
  - apply for_events_inside_window.
  - apply for_events_outside_window.
  - intros interval c frames Hpos. unfold Video.process_video.
    assert (Hstart : throttled (Video.new_generator interval c))
      by (split; constructor).
    pose proof (process_frames_throttled CommentatorState generate_commentary frames
                  (Video.new_generator interval c) Hpos Hstart) as [Hsp _].
    rewrite (process_frames_interval CommentatorState generate_commentary frames
               (Video.new_generator interval c) Hpos Hstart) in Hsp.
    exact Hsp.
  - intros c events. apply comment_on_events_segments.
Qed.

Lemma throttle_without_override_witness :
  emitted (Video.process_video plain_commentary (Video.new_generator 2 (Some tt))
             [ (12, Some [Some "REQUESTING VANDAL TENZ"%string]);
               (12.5, Some [Some "REQUESTING PHANTOM"%string]);
               (15, Some [Some "owned ghost"%string]) ])
  = [12; 15]
  /\ spaced 2
       (emitted (Video.process_video plain_commentary (Video.new_generator 2 (Some tt))
                   [ (12, Some [Some "REQUESTING VANDAL TENZ"%string]);
                     (12.5, Some [Some "REQUESTING PHANTOM"%string]);
                     (15, Some [Some "owned ghost"%string]) ]))
  /\ Video.generate_commentary_for_events plain_commentary
       [Video.mk_event 12.5 BuyCommentary.REQUESTING_WEAPON "phantom"] 12.5
       (Video.set_commentator (Video.new_generator 2 (Some tt)) tt 12)
     = (None, Video.set_commentator (Video.new_generator 2 (Some tt)) tt 12).
Proof.
  split; [reflexivity|]. split.
  - apply (proj1 (proj2 (proj2 (throttle_without_override unit plain_commentary)))).
    discriminate.
  - apply (proj1 (throttle_without_override unit plain_commentary)).
    reflexivity.
Defined.

(** C1, counterexample.  The phase is PREP_PHASE after the frame at t = 0;
    the frame at t = 0.5 starts the action phase and shows an ability in
    use: two events of importance 3, and both get a segment at t = 0.5,
    closer than any positive interval.  An economic-context event
    (importance 2) gets no segment although nothing was emitted before
    it.  And the video generator answers a frame inside the window with
    no commentary whatever the event. *)
Lemma low_importance_segments_together :
  (exists s1 s2,
      Enhanced.commentary_segments
        (Enhanced.self
           (Enhanced.analyze_frames (Enhanced.new_commentator 0%nat)
              [ (0, frame_of_timer [("BUY 1:30"%string, 0.9)]);
                (0.5, frame_of_ability) ]))
      = [s1; s2]
      /\ Enhanced.importance s1 = 3%Z /\ Enhanced.importance s2 = 3%Z
      /\ Enhanced.timestamp s1 = 0.5 /\ Enhanced.timestamp s2 = 0.5
      /\ ~ low_importance_spaced 2 [s1; s2])
  /\ (let st := Enhanced.analyze_frames (Enhanced.new_commentator 0%nat)
                  [(300, frame_of_scoreboard [("12-10"%string, 0.9)])] in
      map Analyzer.importance (Enhanced.events_detected (Enhanced.self st)) = [2%Z]
      /\ Enhanced.commentary_segments (Enhanced.self st) = [])
  /\ Video.generate_commentary_for_events plain_commentary
       [Video.mk_event 1 BuyCommentary.REQUESTING_WEAPON "operator"] 1
       (Video.new_generator 2 (Some tt))
     = (None, Video.new_generator 2 (Some tt)).
Proof.
  split; [|split; [split; reflexivity|reflexivity]].
  eexists. eexists. split; [reflexivity|].
  split; [reflexivity|]. split; [reflexivity|].
  split; [reflexivity|]. split; [reflexivity|].
  intros H. inversion H as [|a l Ha _]; subst.
  inversion Ha as [|b l' Hab _]; subst.
  assert (Hfar : (2 <= Qabs (0.5 - 0.5))%Q) by (apply Hab; reflexivity).
  apply Qle_bool_iff in Hfar. vm_compute in Hfar. discriminate.
Qed.

(** ** One commentary per frame *)

Lemma new_entries_at_most_one
    (CommentatorState : Type)
    (generate_commentary :
       CommentatorState -> BuyCommentary.Event -> BuyCommentary.Outcome * CommentatorState)
    (g : Video.Generator CommentatorState) (ts : Q) (events : list BuyCommentary.Event) :
  (List.length (new_entries generate_commentary g ts events) <= 1)%nat.
Proof.
  unfold new_entries. destruct events as [|first rest]; [simpl; lia|].
  destruct (fst _) as [txt|]; [|simpl; lia].
  destruct (String.eqb txt ""); simpl; lia.
Qed.

Lemma new_entries_first_only
    (CommentatorState : Type)
    (generate_commentary :
       CommentatorState -> BuyCommentary.Event -> BuyCommentary.Outcome * CommentatorState)
    (g : Video.Generator CommentatorState) (ts : Q)
    (first : BuyCommentary.Event) (rest rest' : list BuyCommentary.Event) :
  map (fun en => (Video.entry_timestamp en, Video.entry_text en))
      (new_entries generate_commentary g ts (first :: rest))
  = map (fun en => (Video.entry_timestamp en, Video.entry_text en))
        (new_entries generate_commentary g ts (first :: rest')).
Proof.
  unfold new_entries. destruct (fst _) as [txt|]; [|reflexivity].
  destruct (String.eqb txt ""); reflexivity.
Qed.

(** C10.  The commentary generated for the events of a frame is the one
    generated for the first event alone, and the commentator is left in
    the same state.  A frame adds to the emitted commentary the entries
    made from the first of its classified events: at most one, with a
    timestamp and a text that do not depend on the events after the
    first. *)
Theorem only_first_event_commented :
  forall (CommentatorState : Type)
         (generate_commentary :
            CommentatorState -> BuyCommentary.Event -> BuyCommentary.Outcome * CommentatorState)
         (g : Video.Generator CommentatorState) (ts : Q),
    (forall (first : BuyCommentary.Event) (rest : list BuyCommentary.Event),
        Video.generate_commentary_for_events generate_commentary (first :: rest) ts g
        = Video.generate_commentary_for_events generate_commentary [first] ts g)
    /\ (forall ocr : Video.FrameOcr,
           Video.all_commentary (snd (Video.process_one generate_commentary (ts, ocr) g))
           = (Video.all_commentary g
              ++ new_entries generate_commentary g ts
                   (fst (Video._extract_events_from_ocr ocr ts g)))%list)
    /\ (forall events : list BuyCommentary.Event,
           (List.length (new_entries generate_commentary g ts events) <= 1)%nat)
    /\ (forall (first : BuyCommentary.Event) (rest rest' : list BuyCommentary.Event),
           map (fun en => (Video.entry_timestamp en, Video.entry_text en))
               (new_entries generate_commentary g ts (first :: rest))
           = map (fun en => (Video.entry_timestamp en, Video.entry_text en))
                 (new_entries generate_commentary g ts (first :: rest'))).
Proof.
  intros CommentatorState generate_commentary g ts. split; [|split; [|split]].
  - intros first rest. reflexivity.
  - intros ocr. rewrite extract_events_pure. cbn [fst].
    apply process_one_commentary.
  - apply new_entries_at_most_one.
  - apply new_entries_first_only.
Qed.

Example two_events_one_commentary :
  let g := Video.process_video plain_commentary (Video.new_generator 2 (Some tt))
             [(12, Some [Some "REQUESTING VANDAL TENZ"; Some "owned ghost"]%string)] in
  map Video.entry_text (Video.all_commentary g) = ["Look at that vandal"%string]
  /\ map (fun en => List.length (Video.entry_events en)) (Video.all_commentary g) = [2%nat].
Proof. split; reflexivity. Qed.
